(** * dhbw.py: campus-network login, keep-alive loop and remote-desktop launcher

    A shallow embedding of [dhbw.py].  The script talks to three things
    outside itself: the network (through [requests]), the terminal
    ([getpass]) and the clock ([sleep]).  They are modelled by

    - a finite script of request outcomes, consumed one per request, in the
      order the requests are issued;
    - a function giving the answer typed at the n-th password prompt;
    - a transcript of events (log calls, prompts, requests, sleeps, process
      control) that every operation appends to.

    Python control flow is kept as it is written: exceptions and [sys.exit]
    are results that skip the rest of a block, [try]/[except] catches one
    exception class, and the attributes of [self] are fields of the state
    that is threaded through the methods. *)

From Stdlib Require Import String Ascii List ZArith QArith Bool Arith Lia.
Import ListNotations.
Local Close Scope Q_scope.
Local Open Scope string_scope.
Local Open Scope list_scope.

(** ** Python values and library behaviour *)

(** [str.endswith]. *)
Definition endswith (s suffix : string) : bool :=
  let n := String.length s in
  let m := String.length suffix in
  if (n <? m)%nat then false else String.eqb (substring (n - m) m s) suffix.

(** Truth value of an [argparse] string option: [None] and the empty string
    are false. *)
Definition truthy (o : option string) : bool :=
  match o with
  | None => false
  | Some s => negb (String.eqb s "")
  end.

(** Exception classes that occur in the script or reach it from the
    libraries it calls. *)
Inductive exn : Type :=
| ConnectionError
| KeyboardInterrupt
| ValueError
| OverflowError
| KeyError
| AttributeError
| FileNotFoundError.

Definition exn_eqb (a b : exn) : bool :=
  match a, b with
  | ConnectionError, ConnectionError
  | KeyboardInterrupt, KeyboardInterrupt
  | ValueError, ValueError
  | OverflowError, OverflowError
  | KeyError, KeyError
  | AttributeError, AttributeError
  | FileNotFoundError, FileNotFoundError => true
  | _, _ => false
  end.

(** What the script can see of a [requests.Response]: the final URL after
    redirects, the status code and the body. *)
Record response : Type := mkResponse {
  url : string;
  status_code : Z;
  text : string
}.

(** What one call of [session.get] or [session.post] does: it returns a
    response or raises.  [Raises KeyboardInterrupt] is the operator
    interrupting while the request is in flight. *)
Inductive outcome : Type :=
| Returns (r : response)
| Raises (e : exn).

(** A Python float: a finite double, taken with its exact value, an
    infinity or NaN.  An int handed to [time.sleep] is the finite value it
    denotes. *)
Inductive pyfloat : Type :=
| Finite (q : Q)
| Infinity (negative : bool)
| NaN.

(** What [time.sleep] raises on a length, if it raises.  CPython refuses
    NaN with [ValueError]; it multiplies the length by 10^9, rounds the
    product to the nearest double and raises [OverflowError] unless that
    double lies in [-2^63, 2^63), the nanoseconds a signed 64-bit integer
    holds; a length that passes and is negative gets [ValueError].  The
    doubles next to 2^63 are 1024 below and 2048 above it, and a tie goes
    to 2^63, which gives the two bounds on the exact product. *)
Definition time_sleep_error (secs : pyfloat) : option exn :=
  match secs with
  | NaN => Some ValueError
  | Infinity _ => Some OverflowError
  | Finite q =>
      let ns := Qmult q (inject_Z 1000000000) in
      if Qle_bool (inject_Z 9223372036854775296) ns  (* 2^63 - 512 *)
      then Some OverflowError
      else if negb (Qle_bool (inject_Z (-9223372036854776832)) ns)
                                                     (* -(2^63 + 1024) *)
           then Some OverflowError
      else if Qle_bool 0 q then None
      else Some ValueError
  end.

Inductive level : Type := DEBUG | INFO | WARNING | ERROR | FATAL.

Inductive verb : Type := GET | POST.

(** Transcript entries.  A log entry keeps the message template and its
    arguments as they are handed to the translation function [_]; the
    translated text depends on the locale table and is not needed here.
    A request entry keeps the outcome the request had, [None] when the
    script of outcomes ended while the request was waiting. *)
Inductive event : Type :=
| ELog (l : level) (template : string) (args : list Z)
| EGetpass (prompt : string)
| ERequest (v : verb) (target : string) (data : list (string * string))
           (o : option outcome)
| ESleep (secs : pyfloat)
| EPopen (args : list string)
| EWait
| EPoll
| ETerminate.

(** How a block of Python ends. *)
Inductive result (A : Type) : Type :=
| Ret (a : A)            (* falls through or returns [a] *)
| Exit (code : Z)        (* [sys.exit(code)] *)
| Raise (e : exn)        (* an exception on its way up *)
| Blocked                (* waiting for a request the script has no outcome for *)
| OutOfFuel.             (* the unrolling bound of a [while True] was reached *)

Arguments Ret {A} a.
Arguments Exit {A} code.
Arguments Raise {A} e.
Arguments Blocked {A}.
Arguments OutOfFuel {A}.

(** ** Blocks of Python as state transformers with a transcript *)

Definition M (St A : Type) : Type := St -> list event * result A * St.

Definition ret {St A} (a : A) : M St A := fun s => ([], Ret a, s).

Definition bind {St A B} (m : M St A) (k : A -> M St B) : M St B := fun s =>
  match m s with
  | (t, Ret a, s') => let '(t', r, s'') := k a s' in (t ++ t', r, s'')
  | (t, Exit c, s') => (t, Exit c, s')
  | (t, Raise e, s') => (t, Raise e, s')
  | (t, Blocked, s') => (t, Blocked, s')
  | (t, OutOfFuel, s') => (t, OutOfFuel, s')
  end.

Notation "x <- m ;; k" := (bind m (fun x => k))
  (at level 61, m at next level, right associativity).
Notation "m ;;; k" := (bind m (fun _ => k))
  (at level 61, right associativity).

Definition emit {St} (e : event) : M St unit := fun s => ([e], Ret tt, s).

Definition raise {St A} (e : exn) : M St A := fun s => ([], Raise e, s).

(** [sys.exit(code)]. *)
Definition sys_exit {St A} (code : Z) : M St A := fun s => ([], Exit code, s).

(** [try: body except cls: handler]. *)
Definition try_except {St A} (body : M St A) (cls : exn) (handler : M St A)
    : M St A :=
  fun s =>
    match body s with
    | (t, Raise e, s') =>
        if exn_eqb cls e
        then let '(t', r, s'') := handler s' in (t ++ t', r, s'')
        else (t, Raise e, s')
    | other => other
    end.

(** A call of one of the logger's methods. *)
Definition log {St} (l : level) (template : string) (args : list Z)
    : M St unit :=
  emit (ELog l template args).

(** [time.sleep]: it returns after the wait, or raises at once. *)
Definition sleep {St} (secs : pyfloat) : M St unit := fun s =>
  match time_sleep_error secs with
  | None => ([ESleep secs], Ret tt, s)
  | Some e => ([], Raise e, s)
  end.

(** What is observed of a run: the transcript and how it ended. *)
Definition run {St A} (m : M St A) (s : St) : list event * result A :=
  let '(t, r, _) := m s in (t, r).

(** ** class Action and [main] *)

Record Action (St : Type) : Type := mkAction {
  init : M St unit;
  execute : M St unit;
  shutdown : M St unit
}.

Arguments init {St} _.
Arguments execute {St} _.
Arguments shutdown {St} _.

(** [main] once the verb is parsed: construct the action, run it, and on
    [KeyboardInterrupt] shut it down. *)
Definition main {St} (action : Action St) : M St unit :=
  init action ;;;
  try_except (execute action) KeyboardInterrupt
    (log INFO "Received keyboard interrupt. Stopping running actions..." [] ;;;
     shutdown action).

(** ** class Login *)

Module Login.

(** Command-line options of the [login] verb. *)
Record options : Type := mkOptions {
  username : string;
  password : option string;     (* -p/--password, default None *)
  server : string;              (* -s/--server *)
  timeout : pyfloat;            (* -t/--timeout, seconds, type=float *)
  safe_mode : option string     (* --safe-mode takes a value, default None *)
}.

(** [Login.setup_parser]: the options of [login USERNAME] with no flag
    given. *)
Definition setup_parser (user : string) : options :=
  mkOptions user None "zerberus.ba-horb.de" (Finite 60) None.

(** The [Login] object together with what the world still holds for it. *)
Record machine : Type := mkMachine {
  self_password : option string;   (* [self.password] *)
  net : list outcome;              (* outcomes of the requests still to come *)
  prompts : nat                    (* how many prompts were answered so far *)
}.

(** One request of the session: the next outcome of the script. *)
Definition request (v : verb) (target : string)
    (data : list (string * string)) : M machine response := fun s =>
  match net s with
  | [] => ([ERequest v target data None], Blocked, s)
  | Returns r :: rest =>
      ([ERequest v target data (Some (Returns r))], Ret r,
       mkMachine (self_password s) rest (prompts s))
  | Raises e :: rest =>
      ([ERequest v target data (Some (Raises e))], Raise e,
       mkMachine (self_password s) rest (prompts s))
  end.

Definition get_self_password : M machine (option string) :=
  fun s => ([], Ret (self_password s), s).

Definition set_self_password (p : option string) : M machine unit :=
  fun s => ([], Ret tt, mkMachine p (net s) (prompts s)).

Section WithOptions.

Variable opts : options.
(** The password the operator types at the n-th prompt. *)
Variable typed : nat -> string.

Definition getpass (prompt : string) : M machine string := fun s =>
  ([EGetpass prompt], Ret (typed (prompts s)),
   mkMachine (self_password s) (net s) (S (prompts s))).

Definition _build_url (target : string) : string :=
  "https://" ++ server opts ++ "/" ++ target.

Definition init : M machine unit := set_self_password None.

Definition get_passwd : M machine string :=
  if truthy (safe_mode opts) then getpass "Password: "
  else
    cached <- get_self_password ;;
    match cached with
    | None =>
        p <- getpass "Password: " ;;
        set_self_password (Some p) ;;;
        ret p
    | Some p => ret p
    end.

Definition login_data (pw : string) : list (string * string) :=
  [("username", username opts); ("password", pw); ("submit", "Log on")].

(** The [while retries > 0] loop of [_login]; it yields the values of
    [retries] and [response] at the loop's exit. *)
Fixpoint login_loop (retries : nat) : M machine (nat * option response) :=
  match retries with
  | O => ret (O, None)
  | S n =>
      try_except
        (pw <- get_passwd ;;
         r <- request POST (_build_url "login-exec.php") (login_data pw) ;;
         ret (retries, Some r))
        ConnectionError
        (log WARNING "No connection possible... %d retries left"
             [Z.of_nat retries] ;;;
         sleep (Finite 30) ;;;
         login_loop n)
  end.

Definition _login : M machine bool :=
  log INFO "Logging in..." [] ;;;
  exit_state <- login_loop 5 ;;
  let '(retries, resp) := exit_state in
  if (0 <? retries)%nat then
    match resp with
    | Some r => ret (negb (endswith (url r) "index.php"))
    | None => raise AttributeError
    end
  else ret false.

Definition _logout : M machine bool :=
  r <- request GET (_build_url "logout.php") [] ;;
  ret (Z.eqb (status_code r) 200).

Definition _init_session : M machine unit :=
  log INFO "Initializing session..." [] ;;;
  r <- try_except
         (request GET (_build_url "index.php") [])
         ConnectionError
         (log FATAL "No connection to zerberus possible" [] ;;;
          sys_exit 1) ;;
  if negb (Z.eqb (status_code r) 200) then
    log FATAL "No connection to the login server possible" [] ;;;
    sys_exit 1
  else ret tt.

Definition _keepalive : M machine bool :=
  try_except
    (r <- request GET (_build_url "online.php") [] ;;
     ret (negb (endswith (url r) "index.php")))
    ConnectionError
    (ret false).

(** The [while True] loop of [execute], unrolled at most [fuel] times. *)
Fixpoint keepalive_loop (fuel : nat) : M machine unit :=
  match fuel with
  | O => fun s => ([], OutOfFuel, s)
  | S fuel' =>
      log INFO "Sending keep-alive" [] ;;;
      alive <- _keepalive ;;
      (if negb alive then
         ok <- _login ;;
         if negb ok then
           log ERROR "Couldn't log back in" [] ;;;
           sys_exit 0
         else ret tt
       else sleep (timeout opts)) ;;;
      keepalive_loop fuel'
  end.

(** Every turn of the loop issues a request, so one turn more than the
    script has outcomes left is enough to run the loop to its end. *)
Definition execute : M machine unit :=
  _init_session ;;;
  ok <- _login ;;
  (if negb ok then
     log ERROR "Invalid username/password!" [] ;;;
     sys_exit (-1)
   else log INFO "Successfully logged in" []) ;;;
  fun s => keepalive_loop (S (List.length (net s))) s.

Definition shutdown : M machine unit :=
  log INFO "Logging out..." [] ;;;
  ok <- _logout ;;
  if negb ok then log ERROR "Logout failed" []
  else log INFO "Goodbye!" [].

Definition action : Action machine := mkAction machine init execute shutdown.

(** The process started with the [login] verb, on a script of request
    outcomes. *)
Definition process (script : list outcome) : list event * result unit :=
  run (main action) (mkMachine None script 0).

End WithOptions.

End Login.

(** ** class RemoteDesktop *)

(** [str.split] with a one-character separator. *)
Fixpoint split (sep : ascii) (s : string) : list string :=
  match s with
  | EmptyString => [EmptyString]
  | String c rest =>
      if Ascii.eqb c sep then EmptyString :: split sep rest
      else match split sep rest with
           | w :: ws => String c w :: ws
           | [] => [String c EmptyString]
           end
  end.

(** [" ".join]. *)
Definition join (sep : string) (parts : list string) : string :=
  String.concat sep parts.

Module RemoteDesktop.

Record options : Type := mkOptions {
  username : string;
  domain : string;
  server : string;
  geometry : string
}.

(** [RemoteDesktop.setup_parser]: the options of [termserv USERNAME] with
    no flag given. *)
Definition setup_parser (user : string) : options :=
  mkOptions user "ba-horb.de" "termserv.ba-horb.de" "1024x768".

(** What the child process does while [proc.wait()] is waiting for it: it
    exits, or the operator interrupts the wait, the child being still alive
    or not when [shutdown] polls it. *)
Inductive child : Type :=
| Exits (returncode : Z)
| Interrupted (alive : bool).

(** What [subprocess.Popen] does. *)
Inductive launch : Type :=
| Fails (e : exn)
| Starts (c : child).

(** The machine the script runs on. *)
Record host : Type := mkHost {
  environ_PATH : option string;      (* [os.environ["PATH"]], if set *)
  path_exists : string -> bool;      (* [os.path.exists] *)
  popen : launch
}.

(** The [RemoteDesktop] object: [self.proc], once assigned. *)
Record desktop : Type := mkDesktop {
  proc : option child
}.

Section WithOptions.

Variable opts : options.
Variable h : host.

Definition check_executable (progname : string) : result bool :=
  match environ_PATH h with
  | None => Raise KeyError
  | Some path_var =>
      Ret (existsb (fun path => path_exists h (path ++ "/" ++ progname)%string)
                   (split ":" path_var))
  end.

Definition init : M desktop unit :=
  match check_executable "rdesktop" with
  | Ret found =>
      if negb found then
        log FATAL
          "Remote desktop connections require the 'rdesktop' program. Please install it."
          []
      else ret tt
  | Exit c => sys_exit c
  | Raise e => raise e
  | Blocked => fun s => ([], Blocked, s)
  | OutOfFuel => fun s => ([], OutOfFuel, s)
  end.

Definition args : list string :=
  ["rdesktop"; "-u"; (domain opts ++ "\" ++ username opts)%string; "-x"; "l";
   "-a"; "16"; "-g"; geometry opts; server opts].

Definition Popen (argv : list string) : M desktop unit := fun s =>
  match popen h with
  | Fails e => ([EPopen argv], Raise e, s)
  | Starts c => ([EPopen argv], Ret tt, mkDesktop (Some c))
  end.

Definition proc_wait : M desktop unit := fun s =>
  match proc s with
  | None => ([], Raise AttributeError, s)
  | Some (Exits _) => ([EWait], Ret tt, s)
  | Some (Interrupted _) => ([EWait], Raise KeyboardInterrupt, s)
  end.

(** [proc.poll()] followed by reading [proc.returncode]: whether it is
    [None]. *)
Definition proc_poll : M desktop bool := fun s =>
  match proc s with
  | None => ([], Raise AttributeError, s)
  | Some (Exits _) => ([EPoll], Ret false, s)
  | Some (Interrupted alive) => ([EPoll], Ret alive, s)
  end.

Definition execute : M desktop unit :=
  log INFO "Connecting to the remote desktop" [] ;;;
  log DEBUG (join " " args) [] ;;;
  Popen args ;;;
  proc_wait.

Definition shutdown : M desktop unit :=
  running <- proc_poll ;;
  if running then
    log INFO "Killing rdesktop process..." [] ;;;
    emit ETerminate
  else ret tt.

Definition action : Action desktop := mkAction desktop init execute shutdown.

(** The process started with the [termserv] verb. *)
Definition process : list event * result unit :=
  run (main action) (mkDesktop None).

End WithOptions.

End RemoteDesktop.

(** ** Reading transcripts *)

Definition count (p : event -> bool) (t : list event) : nat :=
  List.length (filter p t).

Definition is_getpass (e : event) : bool :=
  match e with EGetpass _ => true | _ => false end.

Definition is_post (e : event) : bool :=
  match e with ERequest POST _ _ _ => true | _ => false end.

Definition is_retry_warning (e : event) : bool :=
  match e with ELog WARNING _ _ => true | _ => false end.

(** The first line of [_login]: one per call. *)
Definition is_login_start (e : event) : bool :=
  match e with
  | ELog INFO m [] => String.eqb m "Logging in..."
  | _ => false
  end.

(** What the retry loop of [_login] writes to the transcript. *)
Definition is_attempt_event (e : event) : bool :=
  match e with
  | EGetpass _ => true
  | ERequest POST _ _ _ => true
  | ELog WARNING _ _ => true
  | ESleep _ => true
  | _ => false
  end.

(** The outcomes on which [_keepalive] returns [False]. *)
Definition poll_fails (o : outcome) : bool :=
  match o with
  | Returns r => endswith (url r) "index.php"
  | Raises ConnectionError => true
  | Raises _ => false
  end.

Definition is_failed_poll (opts : Login.options) (e : event) : bool :=
  match e with
  | ERequest GET u _ (Some o) =>
      String.eqb u (Login._build_url opts "online.php") && poll_fails o
  | _ => false
  end.

(** Every failed keep-alive poll of the transcript has the start of a login
    call as its next entry. *)
Fixpoint relogin_follows (opts : Login.options) (t : list event) : bool :=
  match t with
  | [] => true
  | e :: t' =>
      (if is_failed_poll opts e
       then match t' with
            | e' :: _ => is_login_start e'
            | [] => false
            end
       else true) && relogin_follows opts t'
  end.

(** The outcome of the last POST of a transcript, if it has one. *)
Fixpoint last_post (t : list event) : option (option outcome) :=
  match t with
  | [] => None
  | e :: t' =>
      match last_post t' with
      | Some o => Some o
      | None => match e with
                | ERequest POST _ _ o => Some o
                | _ => None
                end
      end
  end.

(** ** Scripts *)

(** [k] connection errors in a row. *)
Definition conn_errors (k : nat) : list outcome :=
  repeat (Raises ConnectionError) k.

Definition with_net (s : Login.machine) (rest : list outcome) : Login.machine :=
  Login.mkMachine (Login.self_password s) rest (Login.prompts s).

(** Whether the warm-up request of a script lets [_init_session] pass. *)
Definition warm_up_passes (script : list outcome) : bool :=
  match script with
  | Returns r :: _ => Z.eqb (status_code r) 200
  | _ => false
  end.

(** ** What [get_passwd] does in a given state *)

Section PasswdOf.

Variable opts : Login.options.
Variable typed : nat -> string.

(** Whether a call of [get_passwd] prompts. *)
Definition asks (s : Login.machine) : bool :=
  truthy (Login.safe_mode opts) ||
  match Login.self_password s with None => true | Some _ => false end.

(** The password it returns. *)
Definition passwd_of (s : Login.machine) : string :=
  if truthy (Login.safe_mode opts) then typed (Login.prompts s)
  else match Login.self_password s with
       | None => typed (Login.prompts s)
       | Some p => p
       end.

(** The state it leaves behind. *)
Definition after_passwd (s : Login.machine) : Login.machine :=
  if truthy (Login.safe_mode opts)
  then Login.mkMachine (Login.self_password s) (Login.net s)
                       (S (Login.prompts s))
  else match Login.self_password s with
       | None => Login.mkMachine (Some (typed (Login.prompts s)))
                                 (Login.net s) (S (Login.prompts s))
       | Some _ => s
       end.

Definition passwd_events (s : Login.machine) : list event :=
  if asks s then [EGetpass "Password: "] else [].

(** The transcript entry of one POST of [_login] issued in state [s]. *)
Definition attempt (s : Login.machine) (o : option outcome) : event :=
  ERequest POST (Login._build_url opts "login-exec.php")
           (Login.login_data opts (passwd_of s)) o.

End PasswdOf.

(** The transcript entry of one keep-alive poll. *)
Definition poll (opts : Login.options) (o : option outcome) : event :=
  ERequest GET (Login._build_url opts "online.php") [] o.

Definition keepalive_note : event := ELog INFO "Sending keep-alive" [].

(** ** How a call of the retry loop relates to the script

    [login_shape n script res rest]: started with [retries = n] on
    [script], the loop ends with [res] and leaves [rest] of the script. *)
Inductive login_shape (n : nat) (script : list outcome)
    : result (nat * option response) -> list outcome -> Prop :=
| shape_answered k r rest :
    k < n -> script = conn_errors k ++ Returns r :: rest ->
    login_shape n script (Ret (n - k, Some r)) rest
| shape_exhausted rest :
    script = conn_errors n ++ rest ->
    login_shape n script (Ret (0, None)) rest
| shape_raised k e rest :
    k < n -> e <> ConnectionError ->
    script = conn_errors k ++ Raises e :: rest ->
    login_shape n script (Raise e) rest
| shape_blocked k :
    k < n -> script = conn_errors k ->
    login_shape n script Blocked [].

(** What the script must look like for a call of [_login] to return
    [True], and to return [False]. *)
Definition login_accepted (script : list outcome) : Prop :=
  exists k r rest,
    k < 5 /\ script = conn_errors k ++ Returns r :: rest /\
    endswith (url r) "index.php" = false.

Definition login_rejected (script : list outcome) : Prop :=
  (exists k r rest,
     k < 5 /\ script = conn_errors k ++ Returns r :: rest /\
     endswith (url r) "index.php" = true)
  \/ (exists rest, script = conn_errors 5 ++ rest).

(** How many prompts the cache of the password still allows. *)
Definition budget (s : Login.machine) : nat :=
  match Login.self_password s with None => 1 | Some _ => 0 end.

(** The return statement of [_login], from the loop's exit. *)
Definition login_verdict (res : result (nat * option response)) : result bool :=
  match res with
  | Ret (retries, resp) =>
      if (0 <? retries)%nat then
        match resp with
        | Some r => Ret (negb (endswith (url r) "index.php"))
        | None => Raise AttributeError
        end
      else Ret false
  | Exit c => Exit c
  | Raise e => Raise e
  | Blocked => Blocked
  | OutOfFuel => OutOfFuel
  end.

(** ** How a run of the keep-alive loop relates to the script

    [loop_run opts typed s t res s']: started in state [s], the loop of
    [execute] writes [t], ends with [res] and leaves state [s']. *)
Inductive loop_run (opts : Login.options) (typed : nat -> string)
    : Login.machine -> list event -> result unit -> Login.machine -> Prop :=
| run_blocked s :
    Login.net s = [] ->
    loop_run opts typed s [keepalive_note; poll opts None] Blocked s
| run_alive s r rest t res s' :
    Login.net s = Returns r :: rest ->
    endswith (url r) "index.php" = false ->
    time_sleep_error (Login.timeout opts) = None ->
    loop_run opts typed (with_net s rest) t res s' ->
    loop_run opts typed s
      (keepalive_note :: poll opts (Some (Returns r))
       :: ESleep (Login.timeout opts) :: t) res s'
| run_bad_sleep s r rest e :
    Login.net s = Returns r :: rest ->
    endswith (url r) "index.php" = false ->
    time_sleep_error (Login.timeout opts) = Some e ->
    loop_run opts typed s
      [keepalive_note; poll opts (Some (Returns r))]
      (Raise e) (with_net s rest)
| run_poll_raises s e rest :
    Login.net s = Raises e :: rest ->
    e <> ConnectionError ->
    loop_run opts typed s
      [keepalive_note; poll opts (Some (Raises e))]
      (Raise e) (with_net s rest)
| run_relogin s o rest t1 s1 t res s' :
    Login.net s = o :: rest ->
    poll_fails o = true ->
    Login._login opts typed (with_net s rest) = (t1, Ret true, s1) ->
    loop_run opts typed s1 t res s' ->
    loop_run opts typed s
      (keepalive_note :: poll opts (Some o) :: t1 ++ t) res s'
| run_gives_up s o rest t1 s1 :
    Login.net s = o :: rest ->
    poll_fails o = true ->
    Login._login opts typed (with_net s rest) = (t1, Ret false, s1) ->
    loop_run opts typed s
      (keepalive_note :: poll opts (Some o)
       :: t1 ++ [ELog ERROR "Couldn't log back in" []])
      (Exit 0) s1
| run_relogin_raises s o rest t1 e s1 :
    Login.net s = o :: rest ->
    poll_fails o = true ->
    Login._login opts typed (with_net s rest) = (t1, Raise e, s1) ->
    loop_run opts typed s
      (keepalive_note :: poll opts (Some o) :: t1) (Raise e) s1
| run_relogin_blocked s o rest t1 s1 :
    Login.net s = o :: rest ->
    poll_fails o = true ->
    Login._login opts typed (with_net s rest) = (t1, Blocked, s1) ->
    loop_run opts typed s
      (keepalive_note :: poll opts (Some o) :: t1) Blocked s1.

(** The re-login branch of the loop in [execute], followed by [k]. *)
Definition relogin_then (opts : Login.options) (typed : nat -> string)
    (k : M Login.machine unit) : M Login.machine unit := fun s =>
  match Login._login opts typed s with
  | (t1, Ret true, s1) =>
      let '(t, res, s') := k s1 in (t1 ++ t, res, s')
  | (t1, Ret false, s1) =>
      (t1 ++ [ELog ERROR "Couldn't log back in" []], Exit 0, s1)
  | (t1, Exit c, s1) => (t1, Exit c, s1)
  | (t1, Raise e, s1) => (t1, Raise e, s1)
  | (t1, Blocked, s1) => (t1, Blocked, s1)
  | (t1, OutOfFuel, s1) => (t1, OutOfFuel, s1)
  end.

(** The transcript entry of the warm-up request and of the logout. *)
Definition warm_up (opts : Login.options) (o : option outcome) : event :=
  ERequest GET (Login._build_url opts "index.php") [] o.

Definition logout (opts : Login.options) (o : option outcome) : event :=
  ERequest GET (Login._build_url opts "logout.php") [] o.

(** ** How a run of [execute] relates to its parts *)
Inductive execute_run (opts : Login.options) (typed : nat -> string)
    : Login.machine -> list event -> result unit -> Login.machine -> Prop :=
| ex_warm_up_stops s t res s' :
    Login._init_session opts s = (t, res, s') ->
    res <> Ret tt ->
    execute_run opts typed s t res s'
| ex_login_rejected s t0 s0 t1 s1 :
    Login._init_session opts s = (t0, Ret tt, s0) ->
    Login._login opts typed s0 = (t1, Ret false, s1) ->
    execute_run opts typed s
      (t0 ++ t1 ++ [ELog ERROR "Invalid username/password!" []])
      (Exit (-1)) s1
| ex_login_raises s t0 s0 t1 e s1 :
    Login._init_session opts s = (t0, Ret tt, s0) ->
    Login._login opts typed s0 = (t1, Raise e, s1) ->
    execute_run opts typed s (t0 ++ t1) (Raise e) s1
| ex_login_blocked s t0 s0 t1 s1 :
    Login._init_session opts s = (t0, Ret tt, s0) ->
    Login._login opts typed s0 = (t1, Blocked, s1) ->
    execute_run opts typed s (t0 ++ t1) Blocked s1
| ex_loop s t0 s0 t1 s1 t res s' :
    Login._init_session opts s = (t0, Ret tt, s0) ->
    Login._login opts typed s0 = (t1, Ret true, s1) ->
    loop_run opts typed s1 t res s' ->
    execute_run opts typed s
      (t0 ++ t1 ++ ELog INFO "Successfully logged in" [] :: t) res s'.


(** [opts] with another value given to [-p]. *)
Definition with_password (opts : Login.options) (given : option string)
    : Login.options :=
  Login.mkOptions (Login.username opts) given (Login.server opts)
                  (Login.timeout opts) (Login.safe_mode opts).

(** ** Sample inputs *)

Definition sample_options : Login.options := Login.setup_parser "student".

Definition safe_options : Login.options :=
  Login.mkOptions "student" None "zerberus.ba-horb.de" (Finite 60)
                  (Some "yes").

Definition sample_typed : nat -> string := fun _ => "secret".

(** The landing page, reached directly or by a redirect. *)
Definition landing : response :=
  mkResponse "https://zerberus.ba-horb.de/index.php" 200 "".

(** The page the portal shows after a successful login. *)
Definition welcome : response :=
  mkResponse "https://zerberus.ba-horb.de/login-success.php" 200 "".

(** The keep-alive page of a live session. *)
Definition online : response :=
  mkResponse "https://zerberus.ba-horb.de/online.php" 200 "".

(** The last POST of the transcript got a response, and that response ends
    at the landing page. *)
Definition final_login_redirected (t : list event) : Prop :=
  exists r, last_post t = Some (Some (Returns r)) /\
            endswith (url r) "index.php" = true.

Definition interrupt_note : event :=
  ELog INFO "Received keyboard interrupt. Stopping running actions..." [].

(** ** The path of a URL, for comparison with the spec

    The spec speaks of the path of the final URL; the script never computes
    one.  This is the path component of an absolute URL: what follows the
    host, up to the query or the fragment. *)
Fixpoint after_scheme (u : string) : string :=
  match u with
  | EmptyString => EmptyString
  | String _ u' =>
      if String.prefix "://" u
      then substring 3 (String.length u - 3) u
      else after_scheme u'
  end.

Fixpoint from_slash (u : string) : string :=
  match u with
  | EmptyString => EmptyString
  | String c u' => if Ascii.eqb c "/" then u else from_slash u'
  end.

Fixpoint until_query (u : string) : string :=
  match u with
  | EmptyString => EmptyString
  | String c u' =>
      if Ascii.eqb c "?" || Ascii.eqb c "#" then EmptyString
      else String c (until_query u')
  end.

Definition url_path (u : string) : string :=
  until_query (from_slash (after_scheme u)).

Definition carries_response (e : event) : bool :=
  match e with
  | ERequest _ _ _ (Some (Returns _)) => true
  | _ => false
  end.

(** The landing page with a query string, as a portal may redirect to it. *)
Definition landing_again : response :=
  mkResponse "https://zerberus.ba-horb.de/index.php?again=1" 200 "".

Definition sample_desktop_options : RemoteDesktop.options :=
  RemoteDesktop.setup_parser "student".

(** A machine without rdesktop in any directory of its search path. *)
Definition bare_host : RemoteDesktop.host :=
  RemoteDesktop.mkHost (Some "/usr/local/bin:/usr/bin:/bin")
                       (fun _ => false)
                       (RemoteDesktop.Fails FileNotFoundError).

Definition install_note : event :=
  ELog FATAL
    "Remote desktop connections require the 'rdesktop' program. Please install it."
    [].

(** ** More ways to read a transcript *)

Definition is_poll (opts : Login.options) (e : event) : bool :=
  match e with
  | ERequest GET u _ _ => String.eqb u (Login._build_url opts "online.php")
  | _ => false
  end.

Definition is_logout (opts : Login.options) (e : event) : bool :=
  match e with
  | ERequest GET u _ _ => String.eqb u (Login._build_url opts "logout.php")
  | _ => false
  end.

Definition is_sleep (e : event) : bool :=
  match e with ESleep _ => true | _ => false end.

Definition success_note : event := ELog INFO "Successfully logged in" [].

Definition is_success_note (e : event) : bool :=
  match e with
  | ELog INFO m [] => String.eqb m "Successfully logged in"
  | _ => false
  end.

(** No keep-alive poll before the line that reports the first login. *)
Fixpoint polls_wait_for_login (opts : Login.options) (t : list event) : bool :=
  match t with
  | [] => true
  | e :: t' =>
      if is_success_note e then true
      else negb (is_poll opts e) && polls_wait_for_login opts t'
  end.

(** The warnings and sleeps of a transcript, in order. *)
Definition retry_notes (t : list event) : list event :=
  filter (fun e => is_retry_warning e || is_sleep e) t.

(** What the retry loop writes after a connection error that leaves
    [retries] at [n]. *)
Definition retry_note (n : nat) : list event :=
  [ELog WARNING "No connection possible... %d retries left" [Z.of_nat n];
   ESleep (Finite 30)].

(** The value of a field of the form data of a POST. *)
Fixpoint form_field (name : string) (data : list (string * string))
    : option string :=
  match data with
  | [] => None
  | (k, v) :: rest => if String.eqb k name then Some v else form_field name rest
  end.

(** The passwords sent by the POSTs of a transcript, in order. *)
Definition posted_passwords (t : list event) : list string :=
  flat_map (fun e =>
              match e with
              | ERequest POST _ data _ =>
                  match form_field "password" data with
                  | Some pw => [pw]
                  | None => []
                  end
              | _ => []
              end) t.

(** The password that the i-th POST from state [s] on will carry. *)
Definition password_at (opts : Login.options) (typed : nat -> string)
    (s : Login.machine) (i : nat) : string :=
  if truthy (Login.safe_mode opts) then typed (Login.prompts s + i)
  else passwd_of opts typed s.

(** The POSTs written between [s] and [s'] carry the passwords that are
    due from [s] on, and [s'] goes on where they stop. *)
Definition in_turn (opts : Login.options) (typed : nat -> string)
    (s : Login.machine) (t : list event) (s' : Login.machine) : Prop :=
  posted_passwords t
  = map (password_at opts typed s) (seq 0 (count is_post t)) /\
  forall i,
    password_at opts typed s' i
    = password_at opts typed s (count is_post t + i).

(** Whether a character occurs in a string. *)
Fixpoint has_char (c : ascii) (s : string) : bool :=
  match s with
  | EmptyString => false
  | String x s' => Ascii.eqb x c || has_char c s'
  end.

(** ** The threshold of the root logger

    [main] sets the level of the root logger from the count of [-v] flags,
    by four tests in a row; the root logger starts at WARNING.  Levels are
    the numbers of the logging module. *)
Definition level_no (l : level) : Z :=
  match l with
  | DEBUG => 10
  | INFO => 20
  | WARNING => 30
  | ERROR => 40
  | FATAL => 50
  end.

Definition root_level (verbose : Z) : Z :=
  let lv := level_no WARNING in
  let lv := if (1 <=? verbose)%Z then level_no WARNING else lv in
  let lv := if (2 <=? verbose)%Z then level_no INFO else lv in
  let lv := if (3 <=? verbose)%Z then level_no DEBUG else lv in
  if (4 <=? verbose)%Z then 1%Z else lv.

(** ** Basic facts *)

Arguments Login._build_url : simpl never.
Arguments Login.login_data : simpl never.

Lemma count_app p a b : count p (a ++ b) = count p a + count p b.
Proof. unfold count. now rewrite filter_app, length_app. Qed.

Lemma count_cons p e t :
  count p (e :: t) = (if p e then 1 else 0) + count p t.
Proof. unfold count. cbn. now destruct (p e). Qed.

Lemma count_nil p : count p [] = 0.
Proof. reflexivity. Qed.

Lemma count_none p q t :
  Forall (fun e => q e = true) t ->
  (forall e, q e = true -> p e = false) ->
  count p t = 0.
Proof.
  intros Ht Hpq. induction Ht as [|e t He _ IH]; [reflexivity|].
  rewrite count_cons, IH, (Hpq e He). reflexivity.
Qed.

Lemma append_inj_l (a b c : string) : (a ++ b = a ++ c)%string -> b = c.
Proof.
  induction a as [|x a IH]; cbn; intros H; [assumption|].
  injection H as H. now apply IH.
Qed.

Lemma build_url_inj opts a b :
  Login._build_url opts a = Login._build_url opts b -> a = b.
Proof.
  unfold Login._build_url. intros H.
  apply append_inj_l in H. apply append_inj_l in H.
  now apply append_inj_l in H.
Qed.

Lemma build_url_eqb opts a b :
  String.eqb (Login._build_url opts a) (Login._build_url opts b)
  = String.eqb a b.
Proof.
  destruct (String.eqb_spec a b) as [->|Hne].
  - apply String.eqb_refl.
  - apply String.eqb_neq. intros H. now apply build_url_inj in H.
Qed.

Section LoginFacts.

Variable opts : Login.options.
Variable typed : nat -> string.

Lemma get_passwd_eq s :
  Login.get_passwd opts typed s =
  (passwd_events opts s, Ret (passwd_of opts typed s),
   after_passwd opts typed s).
Proof.
  unfold Login.get_passwd, passwd_events, asks, passwd_of, after_passwd.
  destruct (truthy (Login.safe_mode opts)); [reflexivity|].
  unfold bind, Login.get_self_password. cbn.
  destruct s as [[p|] n c]; reflexivity.
Qed.

Lemma after_passwd_net s :
  Login.net (after_passwd opts typed s) = Login.net s.
Proof.
  unfold after_passwd.
  destruct (truthy (Login.safe_mode opts)); [reflexivity|].
  now destruct (Login.self_password s).
Qed.

(** One turn of the retry loop, by the next outcome of the script. *)
Lemma login_loop_S n s :
  Login.login_loop opts typed (S n) s =
  let s1 := after_passwd opts typed s in
  match Login.net s with
  | [] =>
      (passwd_events opts s ++ [attempt opts typed s None], Blocked, s1)
  | Returns r :: rest =>
      (passwd_events opts s ++ [attempt opts typed s (Some (Returns r))],
       Ret (S n, Some r), with_net s1 rest)
  | Raises e :: rest =>
      if exn_eqb ConnectionError e then
        let '(t, res, s') := Login.login_loop opts typed n (with_net s1 rest) in
        (passwd_events opts s ++
         attempt opts typed s (Some (Raises e))
         :: ELog WARNING "No connection possible... %d retries left"
                 [Z.of_nat (S n)]
         :: ESleep (Finite 30) :: t, res, s')
      else
        (passwd_events opts s ++ [attempt opts typed s (Some (Raises e))],
         Raise e, with_net s1 rest)
  end.
Proof.
  cbn [Login.login_loop]. unfold try_except, bind at 1.
  rewrite get_passwd_eq. unfold bind at 1, Login.request.
  rewrite after_passwd_net.
  destruct (Login.net s) as [|[r|e] rest]; cbn -[Z.of_nat].
  - reflexivity.
  - reflexivity.
  - destruct e; try reflexivity.
    unfold with_net.
    destruct (Login.login_loop opts typed n _) as [[t res] s'].
    now rewrite <- app_assoc.
Qed.

Lemma conn_errors_S k :
  conn_errors (S k) = Raises ConnectionError :: conn_errors k.
Proof. reflexivity. Qed.

(** After [k] connection errors, with budget to spare, an answer ends the
    loop with [k] taken off the budget. *)
Lemma login_loop_answers k : forall n s r rest,
  k < n ->
  Login.net s = conn_errors k ++ Returns r :: rest ->
  exists t s',
    Login.login_loop opts typed n s = (t, Ret (n - k, Some r), s') /\
    Login.net s' = rest.
Proof.
  induction k as [|k IH]; intros [|n] s r rest Hk Hs; try lia.
  - rewrite login_loop_S, Hs. cbn. eexists _, _. split; reflexivity.
  - rewrite login_loop_S, Hs, conn_errors_S. cbn [app exn_eqb]. cbv zeta.
    destruct (IH n (with_net (after_passwd opts typed s)
                             (conn_errors k ++ Returns r :: rest)) r rest)
      as (t & s' & E & Hn); [lia|reflexivity|].
    rewrite E. eexists _, _. split; [reflexivity|exact Hn].
Qed.

(** As many connection errors as the budget holds end the loop with
    [retries = 0] and no response. *)
Lemma login_loop_exhausts n : forall s rest,
  Login.net s = conn_errors n ++ rest ->
  exists t s',
    Login.login_loop opts typed n s = (t, Ret (0, None), s') /\
    Login.net s' = rest.
Proof.
  induction n as [|n IH]; intros s rest Hs.
  - cbn in *. eexists _, _. split; [reflexivity|exact Hs].
  - rewrite login_loop_S, Hs, conn_errors_S. cbn [app exn_eqb]. cbv zeta.
    destruct (IH (with_net (after_passwd opts typed s)
                           (conn_errors n ++ rest)) rest)
      as (t & s' & E & Hn); [reflexivity|].
    rewrite E. eexists _, _. split; [reflexivity|exact Hn].
Qed.

(** Every call of the loop has one of the four shapes. *)
Lemma login_loop_shape n : forall s,
  exists t res s',
    Login.login_loop opts typed n s = (t, res, s') /\
    login_shape n (Login.net s) res (Login.net s').
Proof.
  induction n as [|n IH]; intros s.
  - eexists _, _, _. split; [reflexivity|]. now apply shape_exhausted.
  - rewrite login_loop_S. cbv zeta.
    destruct (Login.net s) as [|[r|e] rest] eqn:E.
    + eexists _, _, _. split; [reflexivity|].
      rewrite after_passwd_net, E.
      apply (shape_blocked _ _ 0); [lia|reflexivity].
    + eexists _, _, _. split; [reflexivity|].
      exact (shape_answered (S n) _ 0 r rest ltac:(lia) eq_refl).
    + destruct e;
        try (eexists _, _, _; split; [reflexivity|];
             apply (shape_raised _ _ 0); [lia|discriminate|reflexivity]).
      cbn [exn_eqb].
      destruct (IH (with_net (after_passwd opts typed s) rest))
        as (t & res & s' & E' & Sh).
      rewrite E'. eexists _, _, _. split; [reflexivity|].
      cbn in Sh. inversion Sh; subst.
      * exact (shape_answered (S n) _ (S k) r _ ltac:(lia) eq_refl).
      * now apply shape_exhausted.
      * apply (shape_raised _ _ (S k)); [lia|assumption|reflexivity].
      * apply (shape_blocked _ _ (S k)); [lia|reflexivity].
Qed.

(** The loop writes nothing but prompts, POSTs, warnings and sleeps. *)
Lemma login_loop_events n : forall s t res s',
  Login.login_loop opts typed n s = (t, res, s') ->
  Forall (fun e => is_attempt_event e = true) t.
Proof.
  assert (Hp : forall s,
    Forall (fun e => is_attempt_event e = true) (passwd_events opts s)).
  { intros s. unfold passwd_events. destruct (asks opts s); repeat constructor. }
  induction n as [|n IH]; intros s t res s' H.
  - cbn in H. injection H as <- _ _. constructor.
  - rewrite login_loop_S in H. cbv zeta in H.
    destruct (Login.net s) as [|[r|e] rest].
    + injection H as <- _ _. apply Forall_app. split; [apply Hp|].
      repeat constructor.
    + injection H as <- _ _. apply Forall_app. split; [apply Hp|].
      repeat constructor.
    + destruct (exn_eqb ConnectionError e).
      * destruct (Login.login_loop opts typed n _) as [[t0 res0] s0] eqn:E.
        injection H as <- _ _. apply Forall_app. split; [apply Hp|].
        repeat constructor. eapply IH, E.
      * injection H as <- _ _. apply Forall_app. split; [apply Hp|].
        repeat constructor.
Qed.

(** *** In safe mode every POST has its own prompt *)

Ltac count_events :=
  repeat (rewrite ?count_app, ?count_cons, ?count_nil);
  cbn [is_getpass is_post is_retry_warning is_login_start
       is_attempt_event attempt Nat.add].

Lemma passwd_events_safe s :
  truthy (Login.safe_mode opts) = true ->
  passwd_events opts s = [EGetpass "Password: "].
Proof. intros H. unfold passwd_events, asks. now rewrite H. Qed.

Lemma after_passwd_safe s :
  truthy (Login.safe_mode opts) = true ->
  Login.self_password (after_passwd opts typed s) = Login.self_password s.
Proof. intros H. unfold after_passwd. now rewrite H. Qed.

Lemma login_loop_safe n :
  truthy (Login.safe_mode opts) = true ->
  forall s t res s',
    Login.login_loop opts typed n s = (t, res, s') ->
    count is_getpass t = count is_post t /\
    count is_post t <= n /\
    (0 < n -> 1 <= count is_post t) /\
    Login.self_password s' = Login.self_password s.
Proof.
  intros Hsafe. induction n as [|n IH]; intros s t res s' H.
  - cbn in H. injection H as <- _ <-. cbn. repeat split; lia.
  - rewrite login_loop_S in H. cbv zeta in H.
    rewrite passwd_events_safe in H by assumption.
    destruct (Login.net s) as [|[r|e] rest].
    + injection H as <- _ <-. count_events.
      rewrite after_passwd_safe by assumption. repeat split; lia.
    + injection H as <- _ <-. count_events. cbn.
      rewrite after_passwd_safe by assumption. repeat split; lia.
    + destruct (exn_eqb ConnectionError e).
      * destruct (Login.login_loop opts typed n _) as [[t0 res0] s0] eqn:E.
        injection H as <- _ <-. apply IH in E.
        destruct E as (E1 & E2 & _ & E4). count_events.
        rewrite E4. cbn. rewrite after_passwd_safe by assumption.
        repeat split; lia.
      * injection H as <- _ <-. count_events. cbn.
        rewrite after_passwd_safe by assumption. repeat split; lia.
Qed.

(** *** Without safe mode the cache pays for at most one prompt *)

Lemma passwd_frugal s :
  truthy (Login.safe_mode opts) = false ->
  count is_getpass (passwd_events opts s)
  + budget (after_passwd opts typed s) = budget s.
Proof.
  intros H. unfold passwd_events, asks, after_passwd, budget. rewrite H.
  destruct s as [[p|] script c]; reflexivity.
Qed.

Lemma login_loop_frugal n :
  truthy (Login.safe_mode opts) = false ->
  forall s t res s',
    Login.login_loop opts typed n s = (t, res, s') ->
    count is_getpass t + budget s' <= budget s.
Proof.
  intros Hsafe. induction n as [|n IH]; intros s t res s' H.
  - cbn in H. injection H as <- _ <-. cbn. lia.
  - rewrite login_loop_S in H. cbv zeta in H.
    pose proof (passwd_frugal s Hsafe) as Hp.
    destruct (Login.net s) as [|[r|e] rest].
    + injection H as <- _ <-. count_events. lia.
    + injection H as <- _ <-. count_events.
      change (budget (with_net (after_passwd opts typed s) rest))
        with (budget (after_passwd opts typed s)). lia.
    + destruct (exn_eqb ConnectionError e).
      * destruct (Login.login_loop opts typed n _) as [[t0 res0] s0] eqn:E.
        injection H as <- _ <-. apply IH in E.
        change (budget (with_net (after_passwd opts typed s) rest))
          with (budget (after_passwd opts typed s)) in E.
        count_events. lia.
      * injection H as <- _ <-. count_events.
        change (budget (with_net (after_passwd opts typed s) rest))
          with (budget (after_passwd opts typed s)). lia.
Qed.

(** *** [_login] *)

Lemma _login_eq s :
  Login._login opts typed s =
  let '(t, res, s') := Login.login_loop opts typed 5 s in
  (ELog INFO "Logging in..." [] :: t, login_verdict res, s').
Proof.
  unfold Login._login. unfold bind at 1. unfold log, emit.
  unfold bind at 1.
  destruct (Login.login_loop opts typed 5 s) as [[t res] s'].
  destruct res as [[retries resp]| | | |]; try reflexivity.
  unfold login_verdict.
  destruct (0 <? retries)%nat; [destruct resp|];
    unfold ret, raise; cbn [app]; now rewrite app_nil_r.
Qed.

Lemma _login_trace s t res s' :
  Login._login opts typed s = (t, res, s') ->
  exists t', t = ELog INFO "Logging in..." [] :: t' /\
             Forall (fun e => is_attempt_event e = true) t'.
Proof.
  rewrite _login_eq.
  destruct (Login.login_loop opts typed 5 s) as [[t0 res0] s0] eqn:E.
  intros H. injection H as <- _ _. eexists. split; [reflexivity|].
  eapply login_loop_events, E.
Qed.

(** A response within the budget decides the call; the script is used up
    to and including that response. *)
Lemma _login_answered k s r rest :
  k < 5 ->
  Login.net s = conn_errors k ++ Returns r :: rest ->
  exists t s',
    Login._login opts typed s
    = (t, Ret (negb (endswith (url r) "index.php")), s') /\
    Login.net s' = rest.
Proof.
  intros Hk Hs. rewrite _login_eq.
  destruct (login_loop_answers k 5 s r rest Hk Hs) as (t & s' & E & Hn).
  rewrite E. eexists _, _. split; [|exact Hn].
  cbn [login_verdict].
  replace (0 <? 5 - k)%nat with true
    by (symmetry; apply Nat.ltb_lt; lia).
  reflexivity.
Qed.

Lemma _login_exhausted s rest :
  Login.net s = conn_errors 5 ++ rest ->
  exists t s',
    Login._login opts typed s = (t, Ret false, s') /\ Login.net s' = rest.
Proof.
  intros Hs. rewrite _login_eq.
  destruct (login_loop_exhausts 5 s rest Hs) as (t & s' & E & Hn).
  rewrite E. eexists _, _. split; [reflexivity|exact Hn].
Qed.

(** Every call of [_login], by its result. *)
Lemma _login_cases s t res s' :
  Login._login opts typed s = (t, res, s') ->
  List.length (Login.net s') <= List.length (Login.net s) /\
  match res with
  | Ret true => login_accepted (Login.net s)
  | Ret false => login_rejected (Login.net s)
  | Raise e => e <> ConnectionError
  | Blocked => True
  | Exit _ | OutOfFuel => False
  end.
Proof.
  rewrite _login_eq.
  destruct (login_loop_shape 5 s) as (t0 & res0 & s0 & E & Sh).
  rewrite E. intros H. injection H as _ <- <-.
  inversion Sh as [k r rest Hk Hs|rest Hs|k e rest Hk He Hs|k Hk Hs];
    subst res0; rewrite Hs; cbn [login_verdict].
  - replace (0 <? 5 - k)%nat with true
      by (symmetry; apply Nat.ltb_lt; lia).
    split.
    { rewrite length_app. cbn. lia. }
    destruct (endswith (url r) "index.php") eqn:Eu; cbn.
    + left. exists k, r, (Login.net s0). auto.
    + exists k, r, (Login.net s0). auto.
  - split.
    { rewrite length_app. lia. }
    right. now exists (Login.net s0).
  - split; [|assumption].
    rewrite length_app. cbn. lia.
  - split; [|exact I]. cbn. lia.
Qed.

Lemma _login_safe s t res s' :
  truthy (Login.safe_mode opts) = true ->
  Login._login opts typed s = (t, res, s') ->
  count is_getpass t = count is_post t /\
  1 <= count is_post t <= 5 /\
  Login.self_password s' = Login.self_password s.
Proof.
  intros Hsafe. rewrite _login_eq.
  destruct (Login.login_loop opts typed 5 s) as [[t0 res0] s0] eqn:E.
  intros H. injection H as <- _ <-.
  destruct (login_loop_safe 5 Hsafe _ _ _ _ E) as (E1 & E2 & E3 & E4).
  count_events. repeat split; try assumption; lia.
Qed.

Lemma _login_frugal s t res s' :
  truthy (Login.safe_mode opts) = false ->
  Login._login opts typed s = (t, res, s') ->
  count is_getpass t + budget s' <= budget s.
Proof.
  intros Hsafe. rewrite _login_eq.
  destruct (Login.login_loop opts typed 5 s) as [[t0 res0] s0] eqn:E.
  intros H. injection H as <- _ <-.
  pose proof (login_loop_frugal 5 Hsafe _ _ _ _ E).
  count_events. lia.
Qed.

(** *** One poll *)

Lemma _keepalive_eq s :
  Login._keepalive opts s =
  match Login.net s with
  | [] => ([poll opts None], Blocked, s)
  | o :: rest =>
      ([poll opts (Some o)],
       match o with
       | Returns r => Ret (negb (endswith (url r) "index.php"))
       | Raises e => if exn_eqb ConnectionError e then Ret false else Raise e
       end,
       with_net s rest)
  end.
Proof.
  unfold Login._keepalive, try_except, bind, Login.request, poll.
  destruct (Login.net s) as [|[r|e] rest]; try reflexivity.
  destruct e; reflexivity.
Qed.

(** *** The keep-alive loop *)

Lemma relogin_eq (k : M Login.machine unit) s :
  bind (bind (Login._login opts typed)
          (fun ok => if negb ok
                     then bind (log ERROR "Couldn't log back in" [])
                               (fun _ => sys_exit 0)
                     else ret tt))
       (fun _ => k) s =
  relogin_then opts typed k s.
Proof.
  unfold bind at 1 2. unfold relogin_then.
  destruct (Login._login opts typed s) as [[t1 [[|]| | | |]] s1];
    try reflexivity.
  cbn. destruct (k s1) as [[t res] s']. now rewrite app_nil_r.
Qed.

Lemma keepalive_loop_S fuel s :
  Login.keepalive_loop opts typed (S fuel) s =
  match Login.net s with
  | [] => ([keepalive_note; poll opts None], Blocked, s)
  | o :: rest =>
      let '(t, res, s') :=
        (if poll_fails o then
           relogin_then opts typed (Login.keepalive_loop opts typed fuel)
                        (with_net s rest)
         else
           match o with
           | Returns _ =>
               match time_sleep_error (Login.timeout opts) with
               | None =>
                   let '(t, res, s') :=
                     Login.keepalive_loop opts typed fuel (with_net s rest) in
                   (ESleep (Login.timeout opts) :: t, res, s')
               | Some e => ([], Raise e, with_net s rest)
               end
           | Raises e => ([], Raise e, with_net s rest)
           end)
      in (keepalive_note :: poll opts (Some o) :: t, res, s')
  end.
Proof.
  cbn [Login.keepalive_loop].
  unfold bind at 1. unfold log, emit.
  unfold bind at 1. rewrite _keepalive_eq.
  destruct (Login.net s) as [|o rest]; [reflexivity|].
  destruct o as [r|e].
  - cbn [poll_fails]. destruct (endswith (url r) "index.php"); cbn [negb].
    + rewrite relogin_eq.
      destruct (relogin_then opts typed _ _) as [[t res] s'].
      destruct res; reflexivity.
    + unfold bind at 1, sleep.
      destruct (time_sleep_error (Login.timeout opts)); [reflexivity|].
      destruct (Login.keepalive_loop opts typed fuel _) as [[t res] s'].
      destruct res; reflexivity.
  - destruct e; cbn [exn_eqb poll_fails]; try reflexivity.
    rewrite relogin_eq.
    destruct (relogin_then opts typed _ _) as [[t res] s'].
    destruct res; reflexivity.
Qed.

(** With more fuel than the script has outcomes the loop runs to its end,
    along one of the runs of [loop_run]. *)
Lemma keepalive_loop_run fuel : forall s,
  List.length (Login.net s) < fuel ->
  exists t res s',
    Login.keepalive_loop opts typed fuel s = (t, res, s') /\
    loop_run opts typed s t res s'.
Proof.
  induction fuel as [|fuel IH]; intros s Hf; [lia|].
  rewrite keepalive_loop_S.
  destruct (Login.net s) as [|o rest] eqn:E.
  - eexists _, _, _. split; [reflexivity|]. now apply run_blocked.
  - cbn in Hf. destruct (poll_fails o) eqn:Ep.
    + unfold relogin_then.
      destruct (Login._login opts typed (with_net s rest))
        as [[t1 r1] s1] eqn:EL.
      destruct (_login_cases _ _ _ _ EL) as [Hlen Hres]. cbn in Hlen.
      destruct r1 as [[|]| | | |]; try contradiction.
      * destruct (IH s1) as (t & res & s' & Ek & Hr); [lia|].
        rewrite Ek. eexists _, _, _. split; [reflexivity|].
        eapply run_relogin; eauto.
      * eexists _, _, _. split; [reflexivity|].
        eapply run_gives_up; eauto.
      * eexists _, _, _. split; [reflexivity|].
        eapply run_relogin_raises; eauto.
      * eexists _, _, _. split; [reflexivity|].
        eapply run_relogin_blocked; eauto.
    + destruct o as [r|e].
      * cbn in Ep.
        destruct (time_sleep_error (Login.timeout opts)) as [e|] eqn:Eq.
        -- eexists _, _, _. split; [reflexivity|].
           eapply run_bad_sleep; eauto.
        -- destruct (IH (with_net s rest)) as (t & res & s' & Ek & Hr);
             [cbn; lia|].
           rewrite Ek. eexists _, _, _. split; [reflexivity|].
           eapply run_alive; eauto.
      * eexists _, _, _. split; [reflexivity|].
        eapply run_poll_raises; eauto.
        intros ->. discriminate Ep.
Qed.

(** *** Warm-up, logout and the whole of [execute] *)

Lemma _init_session_eq s :
  Login._init_session opts s =
  match Login.net s with
  | [] =>
      ([ELog INFO "Initializing session..." []; warm_up opts None],
       Blocked, s)
  | Returns r :: rest =>
      if Z.eqb (status_code r) 200 then
        ([ELog INFO "Initializing session..." [];
          warm_up opts (Some (Returns r))], Ret tt, with_net s rest)
      else
        ([ELog INFO "Initializing session..." [];
          warm_up opts (Some (Returns r));
          ELog FATAL "No connection to the login server possible" []],
         Exit 1, with_net s rest)
  | Raises e :: rest =>
      if exn_eqb ConnectionError e then
        ([ELog INFO "Initializing session..." [];
          warm_up opts (Some (Raises e));
          ELog FATAL "No connection to zerberus possible" []],
         Exit 1, with_net s rest)
      else
        ([ELog INFO "Initializing session..." [];
          warm_up opts (Some (Raises e))], Raise e, with_net s rest)
  end.
Proof.
  unfold Login._init_session, try_except, bind, Login.request, log, emit,
    warm_up.
  destruct (Login.net s) as [|[r|e] rest]; try reflexivity.
  - destruct (Z.eqb (status_code r) 200); reflexivity.
  - destruct e; reflexivity.
Qed.

Lemma shutdown_eq s :
  Login.shutdown opts s =
  match Login.net s with
  | [] => ([ELog INFO "Logging out..." []; logout opts None], Blocked, s)
  | Returns r :: rest =>
      ([ELog INFO "Logging out..." []; logout opts (Some (Returns r));
        if Z.eqb (status_code r) 200 then ELog INFO "Goodbye!" []
        else ELog ERROR "Logout failed" []],
       Ret tt, with_net s rest)
  | Raises e :: rest =>
      ([ELog INFO "Logging out..." []; logout opts (Some (Raises e))],
       Raise e, with_net s rest)
  end.
Proof.
  unfold Login.shutdown, Login._logout, bind, Login.request, log, emit,
    logout.
  destruct (Login.net s) as [|[r|e] rest]; try reflexivity.
  destruct (Z.eqb (status_code r) 200); reflexivity.
Qed.

Lemma execute_total s :
  exists t res s',
    Login.execute opts typed s = (t, res, s') /\
    execute_run opts typed s t res s'.
Proof.
  unfold Login.execute. unfold bind at 1.
  destruct (Login._init_session opts s) as [[t0 r0] s0] eqn:E0.
  destruct r0 as [[]| | | |];
    try (eexists _, _, _; split; [reflexivity|];
         apply ex_warm_up_stops; [assumption|discriminate]).
  unfold bind at 1.
  destruct (Login._login opts typed s0) as [[t1 r1] s1] eqn:E1.
  pose proof (_login_cases _ _ _ _ E1) as [_ Hres].
  destruct r1 as [[|]| | | |]; try contradiction.
  - unfold bind at 1. unfold log, emit. cbn [negb].
    destruct (keepalive_loop_run (S (List.length (Login.net s1))) s1)
      as (t & res & s' & Ek & Hr); [lia|].
    rewrite Ek. eexists _, _, _. split; [reflexivity|].
    eapply ex_loop; eauto.
  - eexists _, _, _. split; [reflexivity|].
    replace ((t1 ++ [ELog ERROR "Invalid username/password!" []]) ++ [])
      with (t1 ++ [ELog ERROR "Invalid username/password!" []])
      by now rewrite app_nil_r.
    eapply ex_login_rejected; eauto.
  - eexists _, _, _. split; [reflexivity|].
    eapply ex_login_raises; eauto.
  - eexists _, _, _. split; [reflexivity|].
    eapply ex_login_blocked; eauto.
Qed.

(** The process, from [execute] and the interrupt handler of [main]. *)
Lemma process_eq script :
  Login.process opts typed script =
  let '(t, res, s') :=
    Login.execute opts typed (Login.mkMachine None script 0) in
  match res with
  | Raise KeyboardInterrupt =>
      let '(t2, res2, _) := Login.shutdown opts s' in
      (t ++ ELog INFO
              "Received keyboard interrupt. Stopping running actions..." []
         :: t2, res2)
  | _ => (t, res)
  end.
Proof.
  unfold Login.process, run, main. cbn [init execute shutdown Login.action].
  unfold bind at 1. unfold Login.init, Login.set_self_password.
  cbn [Login.net Login.prompts]. unfold try_except.
  destruct (Login.execute opts typed _) as [[t res] s'].
  destruct res as [[]| |e| |]; try reflexivity.
  destruct e; try reflexivity.
  cbn [exn_eqb]. unfold bind at 1. unfold log, emit.
  destruct (Login.shutdown opts s') as [[t2 res2] s2].
  reflexivity.
Qed.

(** *** Failed polls and the login calls that answer them *)

Lemma is_failed_poll_poll o :
  is_failed_poll opts (poll opts o)
  = match o with Some o' => poll_fails o' | None => false end.
Proof.
  unfold poll. cbn. destruct o; [|reflexivity].
  now rewrite String.eqb_refl.
Qed.

Lemma is_failed_poll_warm_up o : is_failed_poll opts (warm_up opts o) = false.
Proof.
  unfold warm_up. cbn. destruct o; [|reflexivity].
  now rewrite build_url_eqb.
Qed.

Lemma is_failed_poll_logout o : is_failed_poll opts (logout opts o) = false.
Proof.
  unfold logout. cbn. destruct o; [|reflexivity].
  now rewrite build_url_eqb.
Qed.

Lemma relogin_follows_skip e t :
  is_failed_poll opts e = false ->
  relogin_follows opts (e :: t) = relogin_follows opts t.
Proof. intros H. cbn. now rewrite H. Qed.

Lemma relogin_follows_answered e e' t :
  is_login_start e' = true ->
  relogin_follows opts (e :: e' :: t) = relogin_follows opts (e' :: t).
Proof.
  intros H. cbn [relogin_follows]. rewrite H.
  now destruct (is_failed_poll opts e).
Qed.

Lemma relogin_follows_app a b :
  relogin_follows opts a = true -> relogin_follows opts b = true ->
  relogin_follows opts (a ++ b) = true.
Proof.
  induction a as [|e a IH]; intros Ha Hb; [exact Hb|].
  cbn [app relogin_follows] in *.
  apply andb_true_iff in Ha as [Ha1 Ha2].
  rewrite (IH Ha2 Hb), andb_true_r.
  destruct (is_failed_poll opts e); [|reflexivity].
  destruct a as [|e' a]; [discriminate|exact Ha1].
Qed.

Lemma attempts_no_poll t :
  Forall (fun e => is_attempt_event e = true) t ->
  relogin_follows opts t = true /\
  count (is_failed_poll opts) t = 0 /\
  count is_login_start t = 0.
Proof.
  intros Ht. split; [|split].
  - induction Ht as [|e t He _ IH]; [reflexivity|].
    rewrite relogin_follows_skip; [exact IH|].
    destruct e as [| |[]| | | | |]; try reflexivity; discriminate He.
  - apply (count_none _ _ _ Ht).
    intros [| |[]| | | | |]; try reflexivity; discriminate.
  - apply (count_none _ _ _ Ht).
    intros [[]| | | | | | |]; try reflexivity; discriminate.
Qed.

(** A call of [_login] shows in the transcript as one start line, and as no
    poll. *)
Lemma _login_one_start s t res s' :
  Login._login opts typed s = (t, res, s') ->
  (exists t', t = ELog INFO "Logging in..." [] :: t') /\
  relogin_follows opts t = true /\
  count (is_failed_poll opts) t = 0 /\
  count is_login_start t = 1.
Proof.
  intros H. destruct (_login_trace _ _ _ _ H) as (t' & -> & Ht).
  destruct (attempts_no_poll t' Ht) as (F1 & F2 & F3).
  split; [now exists t'|]. split; [|split].
  - now rewrite relogin_follows_skip.
  - rewrite count_cons, F2. reflexivity.
  - rewrite count_cons, F3. reflexivity.
Qed.

Lemma loop_run_relogins s t res s' :
  loop_run opts typed s t res s' ->
  relogin_follows opts t = true /\
  count is_login_start t = count (is_failed_poll opts) t.
Proof.
  induction 1 as
    [s Hs
    |s r rest t res s' Hs Hu Hq Hrun [IH1 IH2]
    |s r rest e' Hs Hu Hq
    |s e rest Hs He
    |s o rest t1 s1 t res s' Hs Hp Hl Hrun [IH1 IH2]
    |s o rest t1 s1 Hs Hp Hl
    |s o rest t1 e s1 Hs Hp Hl
    |s o rest t1 s1 Hs Hp Hl];
    try (destruct (_login_trace _ _ _ _ Hl) as (t1' & -> & Ht1);
         destruct (attempts_no_poll t1' Ht1) as (L1 & L2 & L3));
    repeat (rewrite ?count_cons, ?count_app, ?count_nil);
    rewrite ?is_failed_poll_poll; cbn [poll_fails];
    rewrite ?Hu, ?Hp, ?L2, ?L3.
  - split; [|reflexivity]. cbn [relogin_follows].
    rewrite is_failed_poll_poll. reflexivity.
  - split; [|cbn; exact IH2].
    rewrite !relogin_follows_skip; try assumption; try reflexivity.
    rewrite is_failed_poll_poll. exact Hu.
  - split; [|reflexivity].
    rewrite !relogin_follows_skip; try reflexivity.
    rewrite is_failed_poll_poll. exact Hu.
  - split; [|now destruct e].
    rewrite !relogin_follows_skip; try reflexivity.
    rewrite is_failed_poll_poll. now destruct e.
  - split; [|cbn; lia].
    rewrite relogin_follows_skip by reflexivity.
    cbn [app]. rewrite relogin_follows_answered by reflexivity.
    rewrite relogin_follows_skip by reflexivity.
    now apply relogin_follows_app.
  - split; [|cbn; lia].
    rewrite relogin_follows_skip by reflexivity.
    cbn [app]. rewrite relogin_follows_answered by reflexivity.
    rewrite relogin_follows_skip by reflexivity.
    now apply relogin_follows_app.
  - split; [|cbn; lia].
    rewrite relogin_follows_skip by reflexivity.
    rewrite relogin_follows_answered by reflexivity.
    now rewrite relogin_follows_skip by reflexivity.
  - split; [|cbn; lia].
    rewrite relogin_follows_skip by reflexivity.
    rewrite relogin_follows_answered by reflexivity.
    now rewrite relogin_follows_skip by reflexivity.
Qed.

(** *** Invariants of the keep-alive loop *)

Lemma loop_run_frugal s t res s' :
  truthy (Login.safe_mode opts) = false ->
  loop_run opts typed s t res s' ->
  count is_getpass t + budget s' <= budget s.
Proof.
  intros Hsafe.
  induction 1 as
    [s Hs
    |s r rest t res s' Hs Hu Hq Hrun IH
    |s r rest e' Hs Hu Hq
    |s e rest Hs He
    |s o rest t1 s1 t res s' Hs Hp Hl Hrun IH
    |s o rest t1 s1 Hs Hp Hl
    |s o rest t1 e s1 Hs Hp Hl
    |s o rest t1 s1 Hs Hp Hl];
    try (apply (_login_frugal _ _ _ _ Hsafe) in Hl);
    try change (budget (with_net s rest)) with (budget s) in *;
    repeat (rewrite ?count_cons, ?count_app, ?count_nil);
    cbn [is_getpass keepalive_note poll Nat.add]; lia.
Qed.

(** The loop ends the process only by giving up after a failed re-login,
    with status 0 and the error line as its last word. *)
Lemma loop_run_exit s t res s' :
  loop_run opts typed s t res s' ->
  match res with
  | Exit c => c = 0%Z /\
              exists t0, t = t0 ++ [ELog ERROR "Couldn't log back in" []]
  | Ret _ | OutOfFuel => False
  | Raise _ | Blocked => True
  end.
Proof.
  induction 1 as
    [s Hs
    |s r rest t res s' Hs Hu Hq Hrun IH
    |s r rest e' Hs Hu Hq
    |s e rest Hs He
    |s o rest t1 s1 t res s' Hs Hp Hl Hrun IH
    |s o rest t1 s1 Hs Hp Hl
    |s o rest t1 e s1 Hs Hp Hl
    |s o rest t1 s1 Hs Hp Hl]; try exact I.
  - destruct res; try exact IH. destruct IH as [-> [t0 ->]].
    split; [reflexivity|].
    now exists (keepalive_note :: poll opts (Some (Returns r))
                :: ESleep (Login.timeout opts) :: t0).
  - destruct res; try exact IH. destruct IH as [-> [t0 ->]].
    split; [reflexivity|].
    exists (keepalive_note :: poll opts (Some o) :: t1 ++ t0).
    cbn [app]. now rewrite app_assoc.
  - split; [reflexivity|].
    now exists (keepalive_note :: poll opts (Some o) :: t1).
Qed.

(** *** Invariants of [execute] *)

Lemma _init_session_passes s t0 s0 :
  Login._init_session opts s = (t0, Ret tt, s0) ->
  exists r rest,
    Login.net s = Returns r :: rest /\ status_code r = 200%Z /\
    s0 = with_net s rest /\
    t0 = [ELog INFO "Initializing session..." [];
          warm_up opts (Some (Returns r))].
Proof.
  rewrite _init_session_eq.
  destruct (Login.net s) as [|[r|e] rest]; try discriminate.
  - destruct (Z.eqb_spec (status_code r) 200); [|discriminate].
    intros H. injection H as <- <-. now exists r, rest.
  - destruct (exn_eqb ConnectionError e); discriminate.
Qed.

Lemma _init_session_stops s t res s' :
  Login._init_session opts s = (t, res, s') ->
  res <> Ret tt ->
  warm_up_passes (Login.net s) = false /\
  (exists o more,
     t = ELog INFO "Initializing session..." [] :: warm_up opts o :: more /\
     (more = [] \/ exists m, more = [ELog FATAL m []])) /\
  match res with
  | Exit c => c = 1%Z
  | Raise e => e <> ConnectionError
  | Blocked => True
  | Ret _ | OutOfFuel => False
  end.
Proof.
  rewrite _init_session_eq.
  destruct (Login.net s) as [|[r|e] rest].
  - intros H _. injection H as <- <- _. cbn. eauto 8.
  - cbn [warm_up_passes]. destruct (Z.eqb (status_code r) 200).
    + intros H Hne. injection H as _ <- _. now elim Hne.
    + intros H _. injection H as <- <- _. eauto 10.
  - destruct e; cbn [exn_eqb]; intros H _; injection H as <- <- _;
      cbn [warm_up_passes]; (split; [reflexivity|]);
      (split; [eauto 10|]); try discriminate; reflexivity.
Qed.

Lemma execute_run_relogins s t res s' :
  execute_run opts typed s t res s' ->
  relogin_follows opts t = true /\
  count is_login_start t
  = (if warm_up_passes (Login.net s) then 1 else 0)
    + count (is_failed_poll opts) t.
Proof.
  destruct 1 as
    [s t res s' H0 Hne
    |s t0 s0 t1 s1 H0 H1
    |s t0 s0 t1 e s1 H0 H1
    |s t0 s0 t1 s1 H0 H1
    |s t0 s0 t1 s1 t res s' H0 H1 Hrun].
  - destruct (_init_session_stops _ _ _ _ H0 Hne)
      as (-> & (o & more & -> & Hmore) & _).
    repeat (rewrite ?count_cons, ?count_app, ?count_nil).
    rewrite !relogin_follows_skip, is_failed_poll_warm_up
      by (try apply is_failed_poll_warm_up; reflexivity).
    destruct Hmore as [->|[m ->]]; now cbn.
  - destruct (_init_session_passes _ _ _ H0) as (r & rest & -> & Hr & -> & ->).
    destruct (_login_one_start _ _ _ _ H1) as (_ & L1 & L2 & L3).
    cbn [warm_up_passes app]. rewrite (proj2 (Z.eqb_eq _ _) Hr).
    repeat (rewrite ?count_cons, ?count_app, ?count_nil).
    rewrite !relogin_follows_skip, is_failed_poll_warm_up, L2, L3
      by (try apply is_failed_poll_warm_up; reflexivity).
    split; [|cbn; lia]. now apply relogin_follows_app.
  - destruct (_init_session_passes _ _ _ H0) as (r & rest & -> & Hr & -> & ->).
    destruct (_login_one_start _ _ _ _ H1) as (_ & L1 & L2 & L3).
    cbn [warm_up_passes app]. rewrite (proj2 (Z.eqb_eq _ _) Hr).
    repeat (rewrite ?count_cons, ?count_app, ?count_nil).
    rewrite !relogin_follows_skip, is_failed_poll_warm_up, L2, L3
      by (try apply is_failed_poll_warm_up; reflexivity).
    split; [assumption|cbn; lia].
  - destruct (_init_session_passes _ _ _ H0) as (r & rest & -> & Hr & -> & ->).
    destruct (_login_one_start _ _ _ _ H1) as (_ & L1 & L2 & L3).
    cbn [warm_up_passes app]. rewrite (proj2 (Z.eqb_eq _ _) Hr).
    repeat (rewrite ?count_cons, ?count_app, ?count_nil).
    rewrite !relogin_follows_skip, is_failed_poll_warm_up, L2, L3
      by (try apply is_failed_poll_warm_up; reflexivity).
    split; [assumption|cbn; lia].
  - destruct (_init_session_passes _ _ _ H0) as (r & rest & -> & Hr & -> & ->).
    destruct (_login_one_start _ _ _ _ H1) as (_ & L1 & L2 & L3).
    destruct (loop_run_relogins _ _ _ _ Hrun) as [R1 R2].
    cbn [warm_up_passes app]. rewrite (proj2 (Z.eqb_eq _ _) Hr).
    repeat (rewrite ?count_cons, ?count_app, ?count_nil).
    rewrite !relogin_follows_skip, is_failed_poll_warm_up, L2, L3, R2
      by (try apply is_failed_poll_warm_up; reflexivity).
    split; [|cbn; lia]. apply relogin_follows_app; [assumption|].
    now rewrite relogin_follows_skip.
Qed.

Lemma _init_session_quiet s t res s' :
  Login._init_session opts s = (t, res, s') ->
  count is_getpass t = 0 /\ budget s' = budget s.
Proof.
  rewrite _init_session_eq.
  destruct (Login.net s) as [|[r|e] rest].
  - intros H. injection H as <- _ <-. now cbn.
  - destruct (Z.eqb (status_code r) 200);
      intros H; injection H as <- _ <-; now cbn.
  - destruct (exn_eqb ConnectionError e);
      intros H; injection H as <- _ <-; now cbn.
Qed.

Lemma execute_run_frugal s t res s' :
  truthy (Login.safe_mode opts) = false ->
  execute_run opts typed s t res s' ->
  count is_getpass t + budget s' <= budget s.
Proof.
  intros Hsafe.
  destruct 1 as
    [s t res s' H0 Hne
    |s t0 s0 t1 s1 H0 H1
    |s t0 s0 t1 e s1 H0 H1
    |s t0 s0 t1 s1 H0 H1
    |s t0 s0 t1 s1 t res s' H0 H1 Hrun];
    apply _init_session_quiet in H0 as [Q1 Q2];
    try apply (_login_frugal _ _ _ _ Hsafe) in H1;
    try apply (loop_run_frugal _ _ _ _ Hsafe) in Hrun;
    repeat (rewrite ?count_cons, ?count_app, ?count_nil);
    cbn [is_getpass Nat.add]; lia.
Qed.

Lemma _login_rejects s :
  login_rejected (Login.net s) ->
  exists t s', Login._login opts typed s = (t, Ret false, s').
Proof.
  intros [(k & r & rest & Hk & Hs & Hu)|(rest & Hs)].
  - destruct (_login_answered k s r rest Hk Hs) as (t & s' & E & _).
    rewrite Hu in E. now exists t, s'.
  - destruct (_login_exhausted s rest Hs) as (t & s' & E & _).
    now exists t, s'.
Qed.

Lemma _login_accepts s :
  login_accepted (Login.net s) ->
  exists t s', Login._login opts typed s = (t, Ret true, s').
Proof.
  intros (k & r & rest & Hk & Hs & Hu).
  destruct (_login_answered k s r rest Hk Hs) as (t & s' & E & _).
  rewrite Hu in E. now exists t, s'.
Qed.

(** [execute] ends with status -1 exactly when the warm-up passes and the
    first call of [_login] returns [False]. *)
Lemma execute_exit_minus_one s :
  (exists t s', Login.execute opts typed s = (t, Exit (-1), s')) <->
  exists r rest,
    Login.net s = Returns r :: rest /\ status_code r = 200%Z /\
    login_rejected rest.
Proof.
  split.
  - intros (t & s' & E).
    destruct (execute_total s) as (t' & res & s'' & E' & Hrun).
    rewrite E in E'. injection E' as <- <- <-.
    inversion Hrun as
      [s_ t_ res_ s'_ H0 Hne
      |s_ t0 s0 t1 s1 H0 H1
      |s_ t0 s0 t1 e s1 H0 H1
      |s_ t0 s0 t1 s1 H0 H1
      |s_ t0 s0 t1 s1 t2 res_ s'_ H0 H1 Hloop]; subst.
    + destruct (_init_session_stops _ _ _ _ H0 Hne) as (_ & _ & Hc).
      discriminate Hc.
    + destruct (_init_session_passes _ _ _ H0)
        as (r & rest & Hs & Hr & -> & _).
      exists r, rest. repeat split; try assumption.
      now destruct (_login_cases _ _ _ _ H1) as [_ Hrej].
    + apply loop_run_exit in Hloop. destruct Hloop as [Hc _].
      discriminate Hc.
  - intros (r & rest & Hs & Hr & Hrej).
    destruct (_login_rejects (with_net s rest) Hrej) as (t1 & s1 & E1).
    unfold Login.execute. unfold bind at 1.
    rewrite _init_session_eq, Hs, (proj2 (Z.eqb_eq _ _) Hr).
    unfold bind at 1. rewrite E1. cbn [negb].
    unfold bind at 1. unfold log, emit. cbn.
    eexists _, _. reflexivity.
Qed.

(** *** Polling while the session stays alive *)


Lemma login_loop_answers_counts k : forall n s r rest t res s',
  k < n ->
  Login.net s = conn_errors k ++ Returns r :: rest ->
  Login.login_loop opts typed n s = (t, res, s') ->
  count is_retry_warning t = k /\ count is_post t = S k.
Proof.
  assert (Hp : forall s, count is_retry_warning (passwd_events opts s) = 0
                         /\ count is_post (passwd_events opts s) = 0).
  { intros s. unfold passwd_events. now destruct (asks opts s). }
  induction k as [|k IH]; intros [|n] s r rest t res s' Hk Hs; try lia;
    rewrite login_loop_S, Hs; cbv zeta; destruct (Hp s) as [P1 P2].
  - intros H. injection H as <- _ _. count_events. rewrite P1, P2. now cbn.
  - rewrite conn_errors_S. cbn [app exn_eqb].
    destruct (Login.login_loop opts typed n _) as [[t0 res0] s0] eqn:E.
    intros H. injection H as <- _ _.
    apply (IH n _ r rest) in E as [E1 E2]; [|lia|reflexivity].
    count_events. rewrite P1, P2, E1, E2. now cbn.
Qed.

(** *** The whole process *)

Lemma shutdown_quiet s t res s' :
  Login.shutdown opts s = (t, res, s') ->
  relogin_follows opts t = true /\
  count (is_failed_poll opts) t = 0 /\
  count is_login_start t = 0 /\
  count is_getpass t = 0 /\
  forall c, res <> Exit c.
Proof.
  rewrite shutdown_eq.
  destruct (Login.net s) as [|[r|e] rest];
    intros H; injection H as <- <- _;
    repeat (rewrite ?count_cons, ?count_app, ?count_nil);
    rewrite ?relogin_follows_skip, ?is_failed_poll_logout
      by (try apply is_failed_poll_logout; reflexivity);
    try (destruct (Z.eqb (status_code r) 200));
    repeat split; try reflexivity; discriminate.
Qed.

(** A process is a run of [execute], followed by [shutdown] when the run
    was interrupted. *)
Lemma process_cases script :
  exists t res s',
    execute_run opts typed (Login.mkMachine None script 0) t res s' /\
    ((res <> Raise KeyboardInterrupt /\
      Login.process opts typed script = (t, res))
     \/
     (res = Raise KeyboardInterrupt /\
      exists t2 res2 s2,
        Login.shutdown opts s' = (t2, res2, s2) /\
        Login.process opts typed script
        = (t ++ interrupt_note :: t2, res2))).
Proof.
  destruct (execute_total (Login.mkMachine None script 0))
    as (t & res & s' & E & Hrun).
  exists t, res, s'. split; [assumption|].
  rewrite process_eq, E.
  destruct res as [[]| |e| |]; try (left; split; [discriminate|reflexivity]).
  destruct e; try (left; split; [discriminate|reflexivity]).
  right. split; [reflexivity|].
  destruct (Login.shutdown opts s') as [[t2 res2] s2].
  now exists t2, res2, s2.
Qed.

Lemma execute_run_exit_zero s t s' :
  execute_run opts typed s t (Exit 0) s' ->
  exists t0, t = t0 ++ [ELog ERROR "Couldn't log back in" []].
Proof.
  inversion 1 as
    [s_ t_ res_ s'_ H0 Hne
    |s_ t0 s0 t1 s1 H0 H1
    |s_ t0 s0 t1 e s1 H0 H1
    |s_ t0 s0 t1 s1 H0 H1
    |s_ t0 s0 t1 s1 t2 res_ s'_ H0 H1 Hloop]; subst.
  - destruct (_init_session_stops _ _ _ _ H0 Hne) as (_ & _ & Hc).
    discriminate Hc.
  - apply loop_run_exit in Hloop. destruct Hloop as [_ [t3 ->]].
    exists (t0 ++ t1 ++ ELog INFO "Successfully logged in" [] :: t3).
    now rewrite <- !app_assoc.
Qed.

(** The unrolling bound of [execute] is never reached. *)
Lemma process_never_out_of_fuel script :
  snd (Login.process opts typed script) <> OutOfFuel.
Proof.
  destruct (process_cases script) as (t & res & s' & Hrun & Hcase).
  destruct Hcase as [[_ ->]|[_ (t2 & res2 & s2 & E2 & ->)]]; cbn [snd].
  - intros ->.
    inversion Hrun as
      [s_ t_ res_ s'_ H0 Hne
      |s_ t0 s0 t1 s1 H0 H1
      |s_ t0 s0 t1 e s1 H0 H1
      |s_ t0 s0 t1 s1 H0 H1
      |s_ t0 s0 t1 s1 t3 res_ s'_ H0 H1 Hloop]; subst.
    + now destruct (_init_session_stops _ _ _ _ H0 Hne) as (_ & _ & Hc).
    + now apply loop_run_exit in Hloop.
  - rewrite shutdown_eq in E2.
    destruct (Login.net s') as [|[r|e] rest];
      injection E2 as _ <- _; discriminate.
Qed.

End LoginFacts.

(** * The claims *)

(** ** C1: connection errors and the retry budget *)

(** C1, as stated, at five connection errors: the fifth error takes the
    last unit of the budget, the loop ends, _login returns False and the
    answer that would have followed is never requested. *)
Lemma login_fails_after_five_errors :
  5 <= 5 /\
  endswith (url welcome) "index.php" = false /\
  snd (run (Login._login sample_options sample_typed)
           (Login.mkMachine None (conn_errors 5 ++ [Returns welcome]) 0))
  = Ret false /\
  Login.net (snd (Login._login sample_options sample_typed
                    (Login.mkMachine None
                       (conn_errors 5 ++ [Returns welcome]) 0)))
  = [Returns welcome].
Proof. split; [lia|]. repeat split. Qed.

(** C1 (amended): in every call of _login, whatever state earlier calls
    left behind, if the first k POSTs raise connection errors with k < 5
    and the next POST gets a response whose final URL does not end in
    index.php, the call returns True; the loop is left with retries = 5 - k,
    after k warnings and k + 1 POSTs, and the script is used up to that
    response.  A call that follows starts from 5 again. *)
Theorem login_succeeds_within_budget opts typed k s r rest :
  k < 5 ->
  Login.net s = conn_errors k ++ Returns r :: rest ->
  endswith (url r) "index.php" = false ->
  exists t s',
    Login.login_loop opts typed 5 s = (t, Ret (5 - k, Some r), s') /\
    Login._login opts typed s
    = (ELog INFO "Logging in..." [] :: t, Ret true, s') /\
    Login.net s' = rest /\
    count is_retry_warning t = k /\
    count is_post t = S k /\
    forall k2 r2 rest2,
      k2 < 5 ->
      rest = conn_errors k2 ++ Returns r2 :: rest2 ->
      exists t2 s2,
        Login.login_loop opts typed 5 s' = (t2, Ret (5 - k2, Some r2), s2).
Proof.
  intros Hk Hs Hu.
  destruct (login_loop_answers opts typed k 5 s r rest Hk Hs)
    as (t & s' & E & Hn).
  destruct (login_loop_answers_counts opts typed k 5 s r rest _ _ _ Hk Hs E)
    as [C1 C2].
  exists t, s'. repeat split; try assumption.
  - rewrite _login_eq, E. cbn [login_verdict]. rewrite Hu.
    replace (0 <? 5 - k)%nat with true
      by (symmetry; apply Nat.ltb_lt; lia).
    reflexivity.
  - intros k2 r2 rest2 Hk2 Hrest.
    destruct (login_loop_answers opts typed k2 5 s' r2 rest2 Hk2)
      as (t2 & s2 & E2 & _); [congruence|].
    now exists t2, s2.
Qed.

Lemma login_succeeds_within_budget_witness :
  exists t s',
    Login.login_loop sample_options sample_typed 5
      (Login.mkMachine None (conn_errors 4 ++ [Returns welcome]) 0)
    = (t, Ret (5 - 4, Some welcome), s') /\
    Login._login sample_options sample_typed
      (Login.mkMachine None (conn_errors 4 ++ [Returns welcome]) 0)
    = (ELog INFO "Logging in..." [] :: t, Ret true, s') /\
    Login.net s' = [] /\
    count is_retry_warning t = 4 /\
    count is_post t = 5 /\
    forall k2 r2 rest2,
      k2 < 5 ->
      [] = conn_errors k2 ++ Returns r2 :: rest2 ->
      exists t2 s2,
        Login.login_loop sample_options sample_typed 5 s'
        = (t2, Ret (5 - k2, Some r2), s2).
Proof.
  apply (login_succeeds_within_budget sample_options sample_typed 4
           (Login.mkMachine None (conn_errors 4 ++ [Returns welcome]) 0)
           welcome []).
  - lia.
  - reflexivity.
  - reflexivity.
Defined.

(** ** C2: when the process exits with -1 *)

(** C2, as stated, in both directions.  Five connection errors during the
    first login end the process with -1 although no login attempt got a
    response; and a re-login whose last attempt is sent back to the landing
    page ends the process with 0. *)
Lemma exit_minus_one_is_not_the_redirect :
  (snd (Login.process sample_options sample_typed
          (Returns landing :: conn_errors 5)) = Exit (-1) /\
   ~ final_login_redirected
       (fst (Login.process sample_options sample_typed
               (Returns landing :: conn_errors 5)))) /\
  (final_login_redirected
     (fst (Login.process sample_options sample_typed
             [Returns landing; Returns welcome; Returns landing;
              Returns landing])) /\
   snd (Login.process sample_options sample_typed
          [Returns landing; Returns welcome; Returns landing;
           Returns landing]) = Exit 0).
Proof.
  split; split.
  - reflexivity.
  - intros (r & H & _). vm_compute in H. discriminate H.
  - exists landing. split; reflexivity.
  - reflexivity.
Qed.

(** C2 (amended): the process exits with -1 if and only if the warm-up
    request is answered with status 200 and the first call of _login
    returns False, that is, fewer than five connection errors are followed
    by a response whose final URL ends in index.php, or all five attempts
    raise connection errors. *)
Theorem exit_minus_one_iff_first_login_rejected opts typed script :
  snd (Login.process opts typed script) = Exit (-1) <->
  exists r rest,
    script = Returns r :: rest /\ status_code r = 200%Z /\
    login_rejected rest.
Proof.
  pose proof (execute_exit_minus_one opts typed
                (Login.mkMachine None script 0)) as Hx.
  cbn [Login.net] in Hx. rewrite <- Hx. clear Hx.
  rewrite process_eq.
  destruct (Login.execute opts typed _) as [[t res] s'].
  split.
  - intros H. exists t, s'.
    destruct res as [[]| |e| |]; try discriminate H.
    + cbn in H. now rewrite H.
    + destruct e; try discriminate H.
      destruct (Login.shutdown opts s') as [[t2 res2] s2] eqn:E2.
      apply shutdown_quiet in E2 as (_ & _ & _ & _ & Hne).
      cbn in H. now elim (Hne (-1)%Z).
  - intros (t' & s'' & H). injection H as _ -> _. reflexivity.
Qed.

Lemma exit_minus_one_iff_first_login_rejected_witness :
  snd (Login.process sample_options sample_typed
         (Returns landing :: conn_errors 5)) = Exit (-1).
Proof.
  apply (proj2 (exit_minus_one_iff_first_login_rejected
                  sample_options sample_typed
                  (Returns landing :: conn_errors 5))).
  exists landing, (conn_errors 5).
  split; [reflexivity|]. split; [reflexivity|].
  right. exists []. reflexivity.
Defined.

(** ** C3: one re-login per failed keep-alive poll *)

(** C3: in the transcript of every process, whatever the outcomes of the
    requests, each failed keep-alive poll has the start of a call of
    _login as its next entry, and there are as many calls of _login as
    failed polls, plus the first login once the warm-up has passed: one
    re-login per failure and never more.  When that call returns False the
    loop writes the error line and exits with status 0; an exit with
    status 0 always ends on that line. *)
Theorem one_relogin_per_failed_poll opts typed script :
  relogin_follows opts (fst (Login.process opts typed script)) = true /\
  count is_login_start (fst (Login.process opts typed script))
  = (if warm_up_passes script then 1 else 0)
    + count (is_failed_poll opts) (fst (Login.process opts typed script)) /\
  (forall fuel s o rest t1 s1,
     Login.net s = o :: rest ->
     poll_fails o = true ->
     Login._login opts typed (with_net s rest) = (t1, Ret false, s1) ->
     Login.keepalive_loop opts typed (S fuel) s
     = (keepalive_note :: poll opts (Some o)
        :: t1 ++ [ELog ERROR "Couldn't log back in" []],
        Exit 0, s1)) /\
  (snd (Login.process opts typed script) = Exit 0 ->
   exists t0,
     fst (Login.process opts typed script)
     = t0 ++ [ELog ERROR "Couldn't log back in" []]).
Proof.
  destruct (process_cases opts typed script)
    as (t & res & s' & Hrun & Hcase).
  destruct (execute_run_relogins opts typed _ _ _ _ Hrun) as [R1 R2].
  cbn [Login.net] in R2.
  assert (Hgive : forall fuel s o rest t1 s1,
     Login.net s = o :: rest ->
     poll_fails o = true ->
     Login._login opts typed (with_net s rest) = (t1, Ret false, s1) ->
     Login.keepalive_loop opts typed (S fuel) s
     = (keepalive_note :: poll opts (Some o)
        :: t1 ++ [ELog ERROR "Couldn't log back in" []],
        Exit 0, s1)).
  { intros fuel s o rest t1 s1 Hs Hp Hl.
    rewrite keepalive_loop_S, Hs, Hp. unfold relogin_then.
    now rewrite Hl. }
  destruct Hcase as [[Hne ->]|[-> (t2 & res2 & s2 & E2 & ->)]];
    cbn [fst snd].
  - repeat split; try assumption.
    intros ->. now apply execute_run_exit_zero in Hrun.
  - destruct (shutdown_quiet opts _ _ _ _ E2) as (S1 & S2 & S3 & _ & Hne).
    repeat split; try assumption.
    + apply relogin_follows_app; [assumption|].
      now rewrite relogin_follows_skip.
    + rewrite !count_app, !count_cons, S2, S3, R2. cbn. lia.
    + intros ->. now elim (Hne 0%Z).
Qed.

Lemma one_relogin_per_failed_poll_witness :
  Login.keepalive_loop sample_options sample_typed 3
    (Login.mkMachine (Some "secret") [Returns landing; Returns landing] 1)
  = (keepalive_note :: poll sample_options (Some (Returns landing))
     :: [ELog INFO "Logging in..." [];
         attempt sample_options sample_typed
           (Login.mkMachine (Some "secret") [Returns landing] 1)
           (Some (Returns landing))]
     ++ [ELog ERROR "Couldn't log back in" []],
     Exit 0, Login.mkMachine (Some "secret") [] 1) /\
  exists t0,
    fst (Login.process sample_options sample_typed
           [Returns landing; Returns welcome; Returns landing;
            Returns landing])
    = t0 ++ [ELog ERROR "Couldn't log back in" []].
Proof.
  pose proof (one_relogin_per_failed_poll sample_options sample_typed
                [Returns landing; Returns welcome; Returns landing;
                 Returns landing]) as (_ & _ & Hgive & Hzero).
  split.
  - apply (Hgive 2 (Login.mkMachine (Some "secret")
                      [Returns landing; Returns landing] 1)
                 (Returns landing) [Returns landing]);
      reflexivity.
  - apply Hzero. reflexivity.
Defined.

(** ** C4: what the two success checks look at *)

(** C4, as stated.  A login whose five attempts all raise connection errors
    fails although no response was received at all; and a poll answered
    from the landing page with a query string, whose path is the landing
    page path, counts as a success. *)
Lemma checks_do_not_compare_paths :
  (snd (run (Login._login sample_options sample_typed)
            (Login.mkMachine None (conn_errors 5) 0)) = Ret false /\
   existsb carries_response
     (fst (run (Login._login sample_options sample_typed)
               (Login.mkMachine None (conn_errors 5) 0))) = false) /\
  (url_path (url landing_again) = "/index.php" /\
   snd (run (Login._keepalive sample_options)
            (Login.mkMachine None [Returns landing_again] 0)) = Ret true).
Proof. repeat split. Qed.

(** C4 (amended): _login returns False exactly when all five attempts raise
    connection errors or the response that ends the retry loop has a final
    URL that, as a string, ends in index.php, and True exactly when that
    response's URL does not end so; _keepalive returns False when the poll
    raises a connection error or its response's URL ends in index.php, True
    on any other response, and lets any other exception pass.  Two
    responses with the same final URL get the same verdict, whatever their
    status code and body. *)
Theorem checks_read_only_the_url_suffix opts typed :
  (forall s,
     (exists t s', Login._login opts typed s = (t, Ret false, s'))
     <-> login_rejected (Login.net s)) /\
  (forall s,
     (exists t s', Login._login opts typed s = (t, Ret true, s'))
     <-> login_accepted (Login.net s)) /\
  (forall s o rest,
     Login.net s = o :: rest ->
     Login._keepalive opts s
     = ([poll opts (Some o)],
        match o with
        | Returns r => Ret (negb (endswith (url r) "index.php"))
        | Raises ConnectionError => Ret false
        | Raises e => Raise e
        end,
        with_net s rest)) /\
  (forall s k r r' rest,
     k < 5 -> url r = url r' ->
     snd (run (Login._login opts typed)
              (with_net s (conn_errors k ++ Returns r :: rest)))
     = snd (run (Login._login opts typed)
                (with_net s (conn_errors k ++ Returns r' :: rest)))) /\
  (forall s r r' rest,
     url r = url r' ->
     snd (run (Login._keepalive opts) (with_net s (Returns r :: rest)))
     = snd (run (Login._keepalive opts) (with_net s (Returns r' :: rest)))).
Proof.
  split; [|split; [|split; [|split]]].
  - intros s. split.
    + intros (t & s' & E). now destruct (_login_cases _ _ _ _ _ _ E).
    + apply _login_rejects.
  - intros s. split.
    + intros (t & s' & E). now destruct (_login_cases _ _ _ _ _ _ E).
    + apply _login_accepts.
  - intros s o rest Hs. rewrite _keepalive_eq, Hs.
    destruct o as [r|[]]; reflexivity.
  - intros s k r r' rest Hk Hu.
    destruct (_login_answered opts typed k
                (with_net s (conn_errors k ++ Returns r :: rest)) r rest Hk)
      as (t & s1 & E & _); [reflexivity|].
    destruct (_login_answered opts typed k
                (with_net s (conn_errors k ++ Returns r' :: rest)) r' rest Hk)
      as (t' & s1' & E' & _); [reflexivity|].
    unfold run. rewrite E, E', Hu. reflexivity.
  - intros s r r' rest Hu. unfold run. rewrite !_keepalive_eq.
    cbn. now rewrite Hu.
Qed.

Lemma checks_read_only_the_url_suffix_witness :
  Login._keepalive sample_options
    (Login.mkMachine None [Returns landing; Returns online] 0)
  = ([poll sample_options (Some (Returns landing))], Ret false,
     Login.mkMachine None [Returns online] 0) /\
  snd (run (Login._login sample_options sample_typed)
           (Login.mkMachine None
              (conn_errors 2 ++ [Returns (mkResponse (url welcome) 200 "")]) 0))
  = snd (run (Login._login sample_options sample_typed)
             (Login.mkMachine None
                (conn_errors 2
                 ++ [Returns (mkResponse (url welcome) 503 "down")]) 0)).
Proof.
  pose proof (checks_read_only_the_url_suffix sample_options sample_typed)
    as (_ & _ & Hpoll & Hlogin & _).
  split.
  - apply (Hpoll (Login.mkMachine None [Returns landing; Returns online] 0)
                 (Returns landing) [Returns online]).
    reflexivity.
  - apply (Hlogin (Login.mkMachine None [] 0) 2
                  (mkResponse (url welcome) 200 "")
                  (mkResponse (url welcome) 503 "down") []).
    + lia.
    + reflexivity.
Defined.

(** ** C5: a failed warm-up is fatal *)

(** C5: when the warm-up request raises a connection error, or is answered
    with a status other than 200, the process writes one fatal line and
    exits with status 1.  The warm-up is the only request of the run: there
    is no retry, no login and no poll. *)
Theorem warm_up_failure_exits_1 opts typed o rest :
  (o = Raises ConnectionError \/
   exists r, o = Returns r /\ status_code r <> 200%Z) ->
  exists fatal,
    Login.process opts typed (o :: rest)
    = ([ELog INFO "Initializing session..." []; warm_up opts (Some o);
        ELog FATAL fatal []],
       Exit 1).
Proof.
  intros H. rewrite process_eq.
  unfold Login.execute. unfold bind at 1.
  rewrite _init_session_eq. cbn [Login.net].
  destruct H as [->|(r & -> & Hr)].
  - cbn [exn_eqb]. eexists. reflexivity.
  - apply Z.eqb_neq in Hr. rewrite Hr. eexists. reflexivity.
Qed.

Lemma warm_up_failure_exits_1_witness :
  exists fatal,
    Login.process sample_options sample_typed
      [Returns (mkResponse (url landing) 503 ""); Returns welcome;
       Returns online]
    = ([ELog INFO "Initializing session..." [];
        warm_up sample_options
          (Some (Returns (mkResponse (url landing) 503 "")));
        ELog FATAL fatal []],
       Exit 1).
Proof.
  apply (warm_up_failure_exits_1 sample_options sample_typed
           (Returns (mkResponse (url landing) 503 ""))
           [Returns welcome; Returns online]).
  right. exists (mkResponse (url landing) 503 "").
  split; [reflexivity|discriminate].
Defined.

(** ** C6: when the password prompt appears *)

(** C6, as stated, in safe mode: one call of _login that meets one
    connection error prompts twice, once for each POST. *)
Lemma safe_mode_prompts_for_every_post :
  truthy (Login.safe_mode safe_options) = true /\
  count is_login_start
    (fst (run (Login._login safe_options sample_typed)
              (Login.mkMachine None
                 [Raises ConnectionError; Returns welcome] 0))) = 1 /\
  count is_getpass
    (fst (run (Login._login safe_options sample_typed)
              (Login.mkMachine None
                 [Raises ConnectionError; Returns welcome] 0))) = 2.
Proof. repeat split. Qed.

(** C6 (amended): in safe mode get_passwd prompts on every call and leaves
    self.password as it is, so a call of _login prompts once for each POST
    it sends, between one and five times; without safe mode get_passwd
    prompts only while self.password is None, stores what was typed and
    returns the stored value ever after, so a whole process prompts at most
    once. *)
Theorem prompts_by_mode opts typed :
  (truthy (Login.safe_mode opts) = true ->
   (forall s,
      Login.get_passwd opts typed s
      = ([EGetpass "Password: "], Ret (typed (Login.prompts s)),
         Login.mkMachine (Login.self_password s) (Login.net s)
                         (S (Login.prompts s)))) /\
   (forall s,
      count is_getpass (fst (run (Login._login opts typed) s))
      = count is_post (fst (run (Login._login opts typed) s)) /\
      1 <= count is_post (fst (run (Login._login opts typed) s)) <= 5 /\
      Login.self_password (snd (Login._login opts typed s))
      = Login.self_password s)) /\
  (truthy (Login.safe_mode opts) = false ->
   (forall s,
      Login.self_password s = None ->
      Login.get_passwd opts typed s
      = ([EGetpass "Password: "], Ret (typed (Login.prompts s)),
         Login.mkMachine (Some (typed (Login.prompts s))) (Login.net s)
                         (S (Login.prompts s)))) /\
   (forall s p,
      Login.self_password s = Some p ->
      Login.get_passwd opts typed s = ([], Ret p, s)) /\
   (forall script,
      count is_getpass (fst (Login.process opts typed script)) <= 1)).
Proof.
  split; intros Hsafe.
  - split; intros s.
    + rewrite get_passwd_eq.
      unfold passwd_events, asks, passwd_of, after_passwd.
      now rewrite Hsafe.
    + unfold run.
      destruct (Login._login opts typed s) as [[t res] s'] eqn:E.
      exact (_login_safe opts typed _ _ _ _ Hsafe E).
  - split; [|split].
    + intros s Hs. rewrite get_passwd_eq.
      unfold passwd_events, asks, passwd_of, after_passwd.
      now rewrite Hsafe, Hs.
    + intros s p Hs. rewrite get_passwd_eq.
      unfold passwd_events, asks, passwd_of, after_passwd.
      now rewrite Hsafe, Hs.
    + intros script.
      destruct (process_cases opts typed script)
        as (t & res & s' & Hrun & Hcase).
      apply (execute_run_frugal opts typed _ _ _ _ Hsafe) in Hrun.
      cbn [budget Login.self_password] in Hrun.
      destruct Hcase as [[_ ->]|[_ (t2 & res2 & s2 & E2 & ->)]];
        cbn [fst]; [lia|].
      destruct (shutdown_quiet opts _ _ _ _ E2) as (_ & _ & _ & S4 & _).
      rewrite count_app, count_cons, S4. cbn. lia.
Qed.

Lemma prompts_by_mode_witness :
  (count is_getpass
     (fst (run (Login._login safe_options sample_typed)
               (Login.mkMachine None
                  [Raises ConnectionError; Returns welcome] 0)))
   = count is_post
       (fst (run (Login._login safe_options sample_typed)
                 (Login.mkMachine None
                    [Raises ConnectionError; Returns welcome] 0)))) /\
  Login.get_passwd sample_options sample_typed
    (Login.mkMachine (Some "secret") [] 1)
  = ([], Ret "secret", Login.mkMachine (Some "secret") [] 1) /\
  count is_getpass
    (fst (Login.process sample_options sample_typed
            [Returns landing; Returns welcome; Returns landing;
             Raises ConnectionError; Returns welcome; Returns online])) <= 1.
Proof.
  split; [|split].
  - apply (proj1 (prompts_by_mode safe_options sample_typed) eq_refl).
  - apply (proj2 (prompts_by_mode sample_options sample_typed) eq_refl).
    reflexivity.
  - apply (proj2 (prompts_by_mode sample_options sample_typed) eq_refl).
Defined.

(** ** C7: shutdown and the logout request *)

(** C7: shutdown sends one logout request.  A response is only logged,
    as a goodbye on status 200 and as an error on any other status.  But a
    logout that meets a connection error is not caught: the exception
    leaves shutdown, and the process, and nothing is logged after the
    request. *)
Theorem logout_error_escapes_shutdown :
  (forall opts cache r rest n,
     Login.shutdown opts (Login.mkMachine cache (Returns r :: rest) n)
     = ([ELog INFO "Logging out..." []; logout opts (Some (Returns r));
         if Z.eqb (status_code r) 200 then ELog INFO "Goodbye!" []
         else ELog ERROR "Logout failed" []],
        Ret tt, Login.mkMachine cache rest n)) /\
  (forall opts cache rest n,
     Login.shutdown opts
       (Login.mkMachine cache (Raises ConnectionError :: rest) n)
     = ([ELog INFO "Logging out..." [];
         logout opts (Some (Raises ConnectionError))],
        Raise ConnectionError, Login.mkMachine cache rest n)) /\
  exists t,
    Login.process sample_options sample_typed
      [Returns landing; Returns welcome; Raises KeyboardInterrupt;
       Raises ConnectionError]
    = (t ++ [interrupt_note; ELog INFO "Logging out..." [];
             logout sample_options (Some (Raises ConnectionError))],
       Raise ConnectionError).
Proof.
  split; [|split].
  - intros opts cache r rest n. now rewrite shutdown_eq.
  - intros opts cache rest n. now rewrite shutdown_eq.
  - eexists (_ :: _ :: _ :: _ :: _ :: _ :: _ :: [_]). reflexivity.
Qed.

(** ** C8: polling after a successful re-login *)




(** ** C9: a missing rdesktop binary *)

(** C9, as stated, on a machine without PATH in its environment and
    without rdesktop anywhere: the binary cannot be found, yet constructing
    the launcher raises KeyError; no fatal line is logged and Popen is
    never called. *)
Lemma no_search_path_aborts_the_launcher :
  (forall file,
     RemoteDesktop.path_exists
       (RemoteDesktop.mkHost None (fun _ => false)
          (RemoteDesktop.Fails FileNotFoundError)) file = false) /\
  RemoteDesktop.process sample_desktop_options
    (RemoteDesktop.mkHost None (fun _ => false)
       (RemoteDesktop.Fails FileNotFoundError))
  = ([], Raise KeyError).
Proof. split; reflexivity. Qed.

(** C9 (amended): when PATH is set and none of its pieces, followed by
    /rdesktop, exists, check_executable returns False, constructing the
    launcher writes the fatal line and returns, and the process goes on to
    execute, which calls Popen with the argument list rdesktop, -u,
    domain\username, -x, l, -a, 16, -g, geometry, server. *)
Theorem missing_rdesktop_is_only_logged opts h path_var :
  RemoteDesktop.environ_PATH h = Some path_var ->
  (forall piece,
     In piece (split ":" path_var) ->
     RemoteDesktop.path_exists h (piece ++ "/rdesktop")%string = false) ->
  RemoteDesktop.check_executable h "rdesktop" = Ret false /\
  run (RemoteDesktop.init h) (RemoteDesktop.mkDesktop None)
  = ([install_note], Ret tt) /\
  exists t res,
    RemoteDesktop.process opts h
    = (install_note
       :: ELog INFO "Connecting to the remote desktop" []
       :: ELog DEBUG
            (join " "
               ["rdesktop"; "-u";
                (RemoteDesktop.domain opts ++ "\"
                 ++ RemoteDesktop.username opts)%string;
                "-x"; "l"; "-a"; "16"; "-g";
                RemoteDesktop.geometry opts; RemoteDesktop.server opts]) []
       :: EPopen
            ["rdesktop"; "-u";
             (RemoteDesktop.domain opts ++ "\"
              ++ RemoteDesktop.username opts)%string;
             "-x"; "l"; "-a"; "16"; "-g";
             RemoteDesktop.geometry opts; RemoteDesktop.server opts]
       :: t, res).
Proof.
  intros Hp Hnone.
  assert (H : RemoteDesktop.check_executable h "rdesktop" = Ret false).
  { unfold RemoteDesktop.check_executable. rewrite Hp. f_equal.
    destruct (existsb _ (split ":" path_var)) eqn:E; [|reflexivity].
    apply existsb_exists in E as (piece & Hin & Hx).
    rewrite <- Hx. exact (Hnone piece Hin). }
  split; [exact H|]. split.
  - unfold run, RemoteDesktop.init. now rewrite H.
  - unfold RemoteDesktop.process, run, main.
    cbn [init execute shutdown RemoteDesktop.action].
    unfold bind at 1. unfold RemoteDesktop.init. rewrite H. cbn [negb].
    unfold log at 1, emit, try_except, RemoteDesktop.execute, bind, log,
      emit, RemoteDesktop.Popen, RemoteDesktop.proc_wait,
      RemoteDesktop.shutdown, RemoteDesktop.proc_poll.
    destruct (RemoteDesktop.popen h) as [e|[code|alive]];
      cbn -[join].
    + destruct e; eexists _, _; reflexivity.
    + eexists _, _; reflexivity.
    + destruct alive; eexists _, _; reflexivity.
Qed.

Lemma missing_rdesktop_is_only_logged_witness :
  RemoteDesktop.check_executable bare_host "rdesktop" = Ret false /\
  run (RemoteDesktop.init bare_host) (RemoteDesktop.mkDesktop None)
  = ([install_note], Ret tt) /\
  exists t res,
    RemoteDesktop.process sample_desktop_options bare_host
    = (install_note
       :: ELog INFO "Connecting to the remote desktop" []
       :: ELog DEBUG
            "rdesktop -u ba-horb.de\student -x l -a 16 -g 1024x768 termserv.ba-horb.de"
            []
       :: EPopen
            ["rdesktop"; "-u"; "ba-horb.de\student"; "-x"; "l"; "-a"; "16";
             "-g"; "1024x768"; "termserv.ba-horb.de"]
       :: t, res).
Proof.
  apply (missing_rdesktop_is_only_logged sample_desktop_options bare_host
           "/usr/local/bin:/usr/bin:/bin").
  - reflexivity.
  - intros piece _. reflexivity.
Defined.

(** ** C10: the -p option *)

(** C10: whatever value -p was given, the process does what it does
    without it; constructing the action leaves self.password as None, and
    the first call of get_passwd prompts. *)
Theorem password_option_is_never_read opts typed (given : option string) :
  (forall script,
     Login.process (with_password opts given) typed script
     = Login.process opts typed script) /\
  (forall s, Login.self_password (snd (Login.init s)) = None) /\
  (forall s,
     Login.get_passwd (with_password opts given) typed (snd (Login.init s))
     = ([EGetpass "Password: "], Ret (typed (Login.prompts s)),
        Login.mkMachine
          (if truthy (Login.safe_mode opts) then None
           else Some (typed (Login.prompts s)))
          (Login.net s) (S (Login.prompts s)))).
Proof.
  split; [|split].
  - intros script. reflexivity.
  - intros s. reflexivity.
  - intros s. rewrite get_passwd_eq.
    unfold passwd_events, asks, passwd_of, after_passwd, with_password.
    cbn. now destruct (truthy (Login.safe_mode opts)).
Qed.

(** * Further properties of the login action *)

Section LoginMore.

Variable opts : Login.options.
Variable typed : nat -> string.

(** ** Events that a part of the run never writes *)

Section Absent.

Variable p : event -> bool.
Hypothesis p_attempt : forall e, is_attempt_event e = true -> p e = false.
Hypothesis p_log : forall l m a, p (ELog l m a) = false.
Hypothesis p_warm_up : forall o, p (warm_up opts o) = false.

Lemma _login_absent s t res s' :
  Login._login opts typed s = (t, res, s') -> count p t = 0.
Proof.
  intros H. destruct (_login_trace _ _ _ _ _ _ H) as (t' & -> & Ht).
  rewrite count_cons, p_log. cbn. exact (count_none p _ _ Ht p_attempt).
Qed.

Lemma _init_session_absent s t res s' :
  Login._init_session opts s = (t, res, s') -> count p t = 0.
Proof.
  rewrite _init_session_eq.
  destruct (Login.net s) as [|[r|e] rest];
    [|destruct (Z.eqb (status_code r) 200)
     |destruct (exn_eqb ConnectionError e)];
    intros H; injection H as <- _ _;
    rewrite ?count_cons, ?p_log, ?p_warm_up; reflexivity.
Qed.

Hypothesis p_poll : forall o, p (poll opts o) = false.

Lemma loop_run_absent s t res s' :
  loop_run opts typed s t res s' -> count p t = 0.
Proof.
  induction 1 as
    [s Hs
    |s r rest t res s' Hs Hu Hq Hrun IH
    |s r rest e' Hs Hu Hq
    |s e rest Hs He
    |s o rest t1 s1 t res s' Hs Hp Hl Hrun IH
    |s o rest t1 s1 Hs Hp Hl
    |s o rest t1 e s1 Hs Hp Hl
    |s o rest t1 s1 Hs Hp Hl];
    try apply _login_absent in Hl;
    unfold keepalive_note;
    rewrite ?count_cons, ?count_app, ?count_cons, ?p_log, ?p_poll,
      ?(p_attempt (ESleep _) eq_refl), ?count_nil; cbn; lia.
Qed.

Lemma execute_run_absent s t res s' :
  execute_run opts typed s t res s' -> count p t = 0.
Proof.
  destruct 1 as
    [s t res s' H0 Hne
    |s t0 s0 t1 s1 H0 H1
    |s t0 s0 t1 e s1 H0 H1
    |s t0 s0 t1 s1 H0 H1
    |s t0 s0 t1 s1 t res s' H0 H1 Hrun];
    apply _init_session_absent in H0;
    try apply _login_absent in H1;
    try apply loop_run_absent in Hrun;
    rewrite ?count_app, ?count_cons, ?count_app, ?p_log, ?count_nil;
    cbn; lia.
Qed.

End Absent.

(** ** Polls and logouts *)

Lemma is_poll_attempt e : is_attempt_event e = true -> is_poll opts e = false.
Proof. destruct e as [| |[]| | | | |]; try reflexivity; discriminate. Qed.

Lemma is_logout_attempt e :
  is_attempt_event e = true -> is_logout opts e = false.
Proof. destruct e as [| |[]| | | | |]; try reflexivity; discriminate. Qed.

Lemma is_poll_warm_up o : is_poll opts (warm_up opts o) = false.
Proof. unfold warm_up. cbn. now rewrite build_url_eqb. Qed.

Lemma is_logout_warm_up o : is_logout opts (warm_up opts o) = false.
Proof. unfold warm_up. cbn. now rewrite build_url_eqb. Qed.

Lemma is_logout_poll o : is_logout opts (poll opts o) = false.
Proof. unfold poll. cbn. now rewrite build_url_eqb. Qed.

Lemma is_poll_logout o : is_poll opts (logout opts o) = false.
Proof. unfold logout. cbn. now rewrite build_url_eqb. Qed.

Lemma is_success_note_eq e : is_success_note e = true -> e = success_note.
Proof.
  destruct e as [[] m [|]| | | | | | |]; try discriminate.
  cbn. intros H. apply String.eqb_eq in H. now subst.
Qed.

Lemma polls_wait_no_poll a b :
  count (is_poll opts) a = 0 ->
  polls_wait_for_login opts b = true ->
  polls_wait_for_login opts (a ++ b) = true.
Proof.
  induction a as [|e a IH]; intros Ha Hb; [exact Hb|].
  rewrite count_cons in Ha. cbn [app polls_wait_for_login].
  destruct (is_success_note e); [reflexivity|].
  destruct (is_poll opts e); [discriminate|].
  cbn. apply IH; [assumption|exact Hb].
Qed.

Lemma polls_wait_sound t : forall pre e post,
  polls_wait_for_login opts t = true ->
  t = pre ++ e :: post ->
  is_poll opts e = true ->
  exists a b, pre = a ++ success_note :: b.
Proof.
  induction t as [|x t IH]; intros pre e post Ht Heq He.
  - now destruct pre.
  - destruct pre as [|y pre]; cbn in Heq; injection Heq as -> ->.
    + cbn in Ht. destruct e as [| |[] u d o| | | | |]; try discriminate He.
      cbn in Ht, He. rewrite He in Ht. discriminate Ht.
    + cbn [polls_wait_for_login] in Ht.
      destruct (is_success_note y) eqn:Ey.
      * apply is_success_note_eq in Ey. subst y. now exists [], pre.
      * apply andb_true_iff in Ht as [_ Ht].
        destruct (IH pre e post Ht eq_refl He) as (a & b & ->).
        now exists (y :: a), b.
Qed.

Lemma shutdown_no_poll s t res s' :
  Login.shutdown opts s = (t, res, s') -> count (is_poll opts) t = 0.
Proof.
  rewrite shutdown_eq.
  destruct (Login.net s) as [|[r|e] rest];
    intros H; injection H as <- _ _;
    rewrite ?count_cons, ?is_poll_logout;
    try destruct (Z.eqb (status_code r) 200); reflexivity.
Qed.

Lemma execute_run_polls_wait s t res s' more :
  execute_run opts typed s t res s' ->
  count (is_poll opts) more = 0 ->
  polls_wait_for_login opts (t ++ more) = true.
Proof.
  assert (Hnil : polls_wait_for_login opts [] = true) by reflexivity.
  destruct 1 as
    [s t res s' H0 Hne
    |s t0 s0 t1 s1 H0 H1
    |s t0 s0 t1 e s1 H0 H1
    |s t0 s0 t1 s1 H0 H1
    |s t0 s0 t1 s1 t res s' H0 H1 Hrun]; intros Hmore;
    apply (_init_session_absent (is_poll opts)
             (fun l m a => eq_refl) is_poll_warm_up) in H0;
    try apply (_login_absent (is_poll opts) is_poll_attempt
                 (fun l m a => eq_refl)) in H1.
  - rewrite <- (app_nil_r (t ++ more)).
    apply polls_wait_no_poll; [|exact Hnil].
    rewrite count_app. lia.
  - rewrite <- (app_nil_r (_ ++ more)).
    apply polls_wait_no_poll; [|exact Hnil].
    rewrite !count_app, count_cons. cbn. lia.
  - rewrite <- (app_nil_r (_ ++ more)).
    apply polls_wait_no_poll; [|exact Hnil].
    rewrite !count_app. lia.
  - rewrite <- (app_nil_r (_ ++ more)).
    apply polls_wait_no_poll; [|exact Hnil].
    rewrite !count_app. lia.
  - replace ((t0 ++ t1 ++ ELog INFO "Successfully logged in" [] :: t) ++ more)
      with ((t0 ++ t1) ++ success_note :: (t ++ more))
      by (now rewrite <- !app_assoc).
    apply polls_wait_no_poll; [|reflexivity].
    rewrite count_app. lia.
Qed.

Lemma execute_run_never_returns s t u s' :
  ~ execute_run opts typed s t (Ret u) s'.
Proof.
  inversion 1 as
    [s_ t_ res_ s'_ H0 Hne
    |s_ t0 s0 t1 s1 H0 H1
    |s_ t0 s0 t1 e s1 H0 H1
    |s_ t0 s0 t1 s1 H0 H1
    |s_ t0 s0 t1 s1 t2 res_ s'_ H0 H1 Hloop]; subst.
  - destruct u. now elim Hne.
  - now apply loop_run_exit in Hloop.
Qed.

Lemma execute_run_exit_code s t c s' :
  execute_run opts typed s t (Exit c) s' ->
  (c = 1%Z /\ warm_up_passes (Login.net s) = false /\ Login.net s <> [])
  \/ c = (-1)%Z \/ c = 0%Z.
Proof.
  inversion 1 as
    [s_ t_ res_ s'_ H0 Hne
    |s_ t0 s0 t1 s1 H0 H1
    |s_ t0 s0 t1 e s1 H0 H1
    |s_ t0 s0 t1 s1 H0 H1
    |s_ t0 s0 t1 s1 t2 res_ s'_ H0 H1 Hloop]; subst.
  - left. destruct (_init_session_stops _ _ _ _ _ H0 Hne) as (Hw & _ & Hc).
    repeat split; try assumption.
    intros Hs. rewrite _init_session_eq, Hs in H0. discriminate H0.
  - right. now left.
  - right. right. now apply loop_run_exit in Hloop.
Qed.

End LoginMore.

(** ** X1: the exit statuses of the login process *)

(** X1: a login process that ends through sys.exit ends with status 1,
    -1 or 0 and no other; it ends with 1 exactly when the warm-up request
    raises a connection error or is answered with a status other than
    200. *)
Theorem login_exit_statuses opts typed script :
  (forall c,
     snd (Login.process opts typed script) = Exit c ->
     c = 1%Z \/ c = (-1)%Z \/ c = 0%Z) /\
  (snd (Login.process opts typed script) = Exit 1 <->
   exists o rest,
     script = o :: rest /\
     (o = Raises ConnectionError \/
      exists r, o = Returns r /\ status_code r <> 200%Z)).
Proof.
  split.
  - intros c Hc.
    destruct (process_cases opts typed script)
      as (t & res & s' & Hrun & Hcase).
    destruct Hcase as [[_ E]|[_ (t2 & res2 & s2 & E2 & E)]];
      rewrite E in Hc; cbn [snd] in Hc; subst.
    + destruct (execute_run_exit_code _ _ _ _ _ _ Hrun)
        as [(-> & _)|[->| ->]]; auto.
    + now destruct (shutdown_quiet opts _ _ _ _ E2) as (_ & _ & _ & _ & Hne);
        elim (Hne c).
  - split.
    + intros Hc.
      destruct (process_cases opts typed script)
        as (t & res & s' & Hrun & Hcase).
      destruct Hcase as [[_ E]|[_ (t2 & res2 & s2 & E2 & E)]];
        rewrite E in Hc; cbn [snd] in Hc; subst.
      * inversion Hrun as
          [s_ t_ res_ s'_ H0 Hne
          |s_ t0 s0 t1 s1 H0 H1
          |s_ t0 s0 t1 e s1 H0 H1
          |s_ t0 s0 t1 s1 H0 H1
          |s_ t0 s0 t1 s1 t3 res_ s'_ H0 H1 Hloop]; subst.
        -- rewrite _init_session_eq in H0. cbn [Login.net] in H0.
           destruct script as [|[r|e] rest]; [discriminate H0| |].
           ++ exists (Returns r), rest. split; [reflexivity|]. right.
              exists r. split; [reflexivity|].
              destruct (Z.eqb_spec (status_code r) 200) as [Hr|Hr];
                [discriminate H0|exact Hr].
           ++ exists (Raises e), rest. split; [reflexivity|]. left.
              destruct e; try discriminate H0. reflexivity.
        -- apply loop_run_exit in Hloop. destruct Hloop as [Hc _].
           discriminate Hc.
      * now destruct (shutdown_quiet opts _ _ _ _ E2)
          as (_ & _ & _ & _ & Hne); elim (Hne 1%Z).
    + intros (o & rest & -> & Ho). rewrite process_eq.
      unfold Login.execute. unfold bind at 1.
      rewrite _init_session_eq. cbn [Login.net].
      destruct Ho as [->|(r & -> & Hr)].
      * reflexivity.
      * apply Z.eqb_neq in Hr. now rewrite Hr.
Qed.

Lemma login_exit_statuses_witness :
  (0 = 1 \/ 0 = -1 \/ 0 = 0)%Z /\
  snd (Login.process sample_options sample_typed
         [Raises ConnectionError; Returns welcome]) = Exit 1.
Proof.
  split.
  - apply (proj1 (login_exit_statuses sample_options sample_typed
                    [Returns landing; Returns welcome; Returns landing;
                     Returns landing]) 0%Z).
    reflexivity.
  - apply (proj2 (login_exit_statuses sample_options sample_typed
                    [Raises ConnectionError; Returns welcome])).
    exists (Raises ConnectionError), [Returns welcome].
    split; [reflexivity|]. now left.
Defined.

(** ** X2: no poll without a login *)

(** X2: in the transcript of every login process a keep-alive poll comes
    only after the line that reports the first successful login. *)
Theorem no_poll_before_login opts typed script pre e post :
  fst (Login.process opts typed script) = pre ++ e :: post ->
  is_poll opts e = true ->
  exists a b, pre = a ++ success_note :: b.
Proof.
  intros Heq He.
  apply (polls_wait_sound opts (fst (Login.process opts typed script))
           pre e post); [|exact Heq|exact He].
  destruct (process_cases opts typed script)
    as (t & res & s' & Hrun & Hcase).
  destruct Hcase as [[_ ->]|[_ (t2 & res2 & s2 & E2 & ->)]]; cbn [fst].
  - rewrite <- (app_nil_r t).
    now apply (execute_run_polls_wait opts typed _ _ _ _ [] Hrun).
  - apply (execute_run_polls_wait opts typed _ _ _ _ _ Hrun).
    rewrite count_cons. cbn.
    exact (shutdown_no_poll opts _ _ _ _ E2).
Qed.

Lemma no_poll_before_login_witness :
  exists a b,
    [ELog INFO "Initializing session..." [];
     warm_up sample_options (Some (Returns landing));
     ELog INFO "Logging in..." [];
     EGetpass "Password: ";
     attempt sample_options sample_typed (Login.mkMachine None [] 0)
       (Some (Returns welcome));
     success_note;
     keepalive_note]
    = a ++ success_note :: b.
Proof.
  apply (no_poll_before_login sample_options sample_typed
           [Returns landing; Returns welcome; Returns online]
           _ (poll sample_options (Some (Returns online)))
           [ESleep (Finite 60); keepalive_note; poll sample_options None]).
  - reflexivity.
  - reflexivity.
Defined.

(** ** X3: the login process logs out only when interrupted *)

(** X3: a login process returns normally only after an interrupt, with the
    interrupt line, the logout request, its response and the goodbye or
    error line as the last entries of its transcript.  It sends at most one
    logout request, and none at all when it ends through sys.exit. *)
Theorem logout_only_after_interrupt opts typed script :
  (snd (Login.process opts typed script) = Ret tt ->
   exists t r,
     fst (Login.process opts typed script)
     = t ++ [interrupt_note; ELog INFO "Logging out..." [];
             logout opts (Some (Returns r));
             if Z.eqb (status_code r) 200 then ELog INFO "Goodbye!" []
             else ELog ERROR "Logout failed" []]) /\
  count (is_logout opts) (fst (Login.process opts typed script)) <= 1 /\
  (forall c,
     snd (Login.process opts typed script) = Exit c ->
     count (is_logout opts) (fst (Login.process opts typed script)) = 0).
Proof.
  destruct (process_cases opts typed script)
    as (t & res & s' & Hrun & Hcase).
  pose proof (execute_run_absent opts typed (is_logout opts)
                (is_logout_attempt opts) (fun l m a => eq_refl)
                (is_logout_warm_up opts) (is_logout_poll opts)
                _ _ _ _ Hrun) as Hnone.
  destruct Hcase as [[_ ->]|[_ (t2 & res2 & s2 & E2 & ->)]];
    cbn [fst snd].
  - split; [|split].
    + intros ->. now apply execute_run_never_returns in Hrun.
    + lia.
    + intros _ _. exact Hnone.
  - rewrite shutdown_eq in E2. rewrite count_app, count_cons, Hnone.
    destruct (Login.net s') as [|[r|e] rest];
      injection E2 as <- <- _;
      rewrite !count_cons; unfold logout; cbn;
      rewrite ?String.eqb_refl;
      (split; [|split]); try discriminate; try (cbn; lia).
    + intros _. exists t, r. reflexivity.
    + destruct (Z.eqb (status_code r) 200); cbn; lia.
Qed.

Lemma logout_only_after_interrupt_witness :
  exists t r,
    fst (Login.process sample_options sample_typed
           [Returns landing; Returns welcome; Raises KeyboardInterrupt;
            Returns landing])
    = t ++ [interrupt_note; ELog INFO "Logging out..." [];
            logout sample_options (Some (Returns r));
            if Z.eqb (status_code r) 200 then ELog INFO "Goodbye!" []
            else ELog ERROR "Logout failed" []].
Proof.
  apply (proj1 (logout_only_after_interrupt sample_options sample_typed
                  [Returns landing; Returns welcome; Raises KeyboardInterrupt;
                   Returns landing])).
  reflexivity.
Defined.

(** ** X4: warnings and waits of the retry loop *)

Lemma retry_notes_app a b : retry_notes (a ++ b) = retry_notes a ++ retry_notes b.
Proof. apply filter_app. Qed.

Lemma retry_notes_passwd opts s : retry_notes (passwd_events opts s) = [].
Proof. unfold passwd_events. now destruct (asks opts s). Qed.

Lemma login_loop_retry_notes opts typed k : forall n s tail t res s',
  k <= n ->
  Login.net s = conn_errors k ++ tail ->
  (k = n \/ match tail with
            | Raises ConnectionError :: _ => False
            | _ => True
            end) ->
  Login.login_loop opts typed n s = (t, res, s') ->
  retry_notes t = flat_map retry_note (map (fun i => n - i) (seq 0 k)).
Proof.
  induction k as [|k IH]; intros n s tail t res s' Hk Hs Htail.
  - destruct n as [|n].
    + cbn. intros H. now injection H as <- _ _.
    + destruct Htail as [Hn|Htail]; [discriminate Hn|].
      rewrite login_loop_S. cbn in Hs. rewrite Hs. cbv zeta.
      destruct tail as [|[r|e] tail'].
      * intros H. injection H as <- _ _.
        now rewrite retry_notes_app, retry_notes_passwd.
      * intros H. injection H as <- _ _.
        now rewrite retry_notes_app, retry_notes_passwd.
      * destruct e; try contradiction; cbn [exn_eqb];
          intros H; injection H as <- _ _;
          now rewrite retry_notes_app, retry_notes_passwd.
  - destruct n as [|n]; [lia|].
    rewrite login_loop_S, Hs, conn_errors_S. cbn [app exn_eqb]. cbv zeta.
    destruct (Login.login_loop opts typed n _) as [[t0 res0] s0] eqn:E.
    intros H. injection H as <- _ _.
    apply (IH n _ tail) in E; [|lia|reflexivity|].
    + rewrite retry_notes_app, retry_notes_passwd.
      cbn [app seq map flat_map]. rewrite <- seq_shift, map_map.
      unfold retry_notes at 1. cbn -[Z.of_nat Nat.sub].
      fold (retry_notes t0). rewrite E. reflexivity.
    + destruct Htail as [Hn|Htail]; [left; lia|now right].
Qed.

(** X4: a call of _login that meets k connection errors in a row, k at
    most 5, writes k warnings that count the retries down from 5, each
    followed by a sleep of 30 seconds and by nothing else, also after the
    fifth error, when no attempt follows. *)
Theorem retries_count_down opts typed k s tail :
  k <= 5 ->
  Login.net s = conn_errors k ++ tail ->
  (k = 5 \/ match tail with
            | Raises ConnectionError :: _ => False
            | _ => True
            end) ->
  retry_notes (fst (run (Login._login opts typed) s))
  = flat_map retry_note (map (fun i => 5 - i) (seq 0 k)).
Proof.
  intros Hk Hs Htail. unfold run. rewrite _login_eq.
  destruct (Login.login_loop opts typed 5 s) as [[t res] s'] eqn:E.
  cbn [fst].
  exact (login_loop_retry_notes opts typed k 5 s tail _ _ _ Hk Hs Htail E).
Qed.

Lemma retries_count_down_witness :
  retry_notes
    (fst (run (Login._login sample_options sample_typed)
              (Login.mkMachine None (conn_errors 5 ++ [Returns welcome]) 0)))
  = flat_map retry_note (map (fun i => 5 - i) (seq 0 5)).
Proof.
  apply (retries_count_down sample_options sample_typed 5
           (Login.mkMachine None (conn_errors 5 ++ [Returns welcome]) 0)
           [Returns welcome]).
  - lia.
  - reflexivity.
  - left. reflexivity.
Defined.

(** ** X5: a timeout that time.sleep refuses *)





(** ** X6: which password each POST carries *)

Section Passwords.

Variable opts : Login.options.
Variable typed : nat -> string.

Lemma posted_passwords_app a b :
  posted_passwords (a ++ b) = posted_passwords a ++ posted_passwords b.
Proof. apply flat_map_app. Qed.

Lemma seq_from c n : seq c n = map (fun i => c + i) (seq 0 n).
Proof.
  revert c. induction n as [|n IH]; intros c; [reflexivity|].
  cbn [seq map]. rewrite Nat.add_0_r. f_equal.
  rewrite (IH (S c)), <- seq_shift, map_map.
  apply map_ext. intros i. lia.
Qed.

Lemma in_turn_refl s : in_turn opts typed s [] s.
Proof. split; [reflexivity|]. intros i. reflexivity. Qed.

Lemma in_turn_app s t1 s1 t2 s2 :
  in_turn opts typed s t1 s1 -> in_turn opts typed s1 t2 s2 ->
  in_turn opts typed s (t1 ++ t2) s2.
Proof.
  intros [P1 Q1] [P2 Q2]. split.
  - rewrite posted_passwords_app, count_app, seq_app, map_app, P1, P2.
    f_equal. cbn [Nat.add].
    rewrite (seq_from (count is_post t1)), map_map.
    apply map_ext. intros i. apply Q1.
  - intros i. rewrite Q2, Q1, count_app. f_equal. lia.
Qed.

Lemma in_turn_with_net s rest : in_turn opts typed s [] (with_net s rest).
Proof. split; [reflexivity|]. intros i. reflexivity. Qed.

Lemma in_turn_from_with_net s rest t s' :
  in_turn opts typed (with_net s rest) t s' -> in_turn opts typed s t s'.
Proof. intros H. exact H. Qed.

Lemma in_turn_skip e s t s' :
  is_post e = false ->
  in_turn opts typed s t s' -> in_turn opts typed s (e :: t) s'.
Proof.
  intros He [P Q]. unfold in_turn. rewrite count_cons, He. cbn [Nat.add].
  split; [|exact Q].
  rewrite <- P. destruct e as [| |[]| | | | |]; try reflexivity.
  discriminate He.
Qed.

Lemma in_turn_passwd s :
  in_turn opts typed s (passwd_events opts s) s.
Proof.
  unfold passwd_events.
  destruct (asks opts s); [apply in_turn_skip; [reflexivity|]|];
    apply in_turn_refl.
Qed.

(** One POST of [_login]: it carries the password that is due, and the
    next one is due after it. *)
Lemma in_turn_attempt s o rest :
  in_turn opts typed s
    (passwd_events opts s ++ [attempt opts typed s o])
    (with_net (after_passwd opts typed s) rest).
Proof.
  apply (in_turn_app s _ s); [apply in_turn_passwd|].
  split.
  - unfold attempt, Login.login_data, password_at, passwd_of. cbn.
    rewrite Nat.add_0_r. now destruct (truthy (Login.safe_mode opts)).
  - intros i. unfold password_at, passwd_of, after_passwd, with_net.
    destruct (truthy (Login.safe_mode opts)).
    + cbn. f_equal. lia.
    + destruct s as [[pw|] script n]; reflexivity.
Qed.

Lemma in_turn_attempt_then s o rest t s' :
  in_turn opts typed (with_net (after_passwd opts typed s) rest) t s' ->
  in_turn opts typed s
    (passwd_events opts s ++ attempt opts typed s o :: t) s'.
Proof.
  intros H.
  replace (passwd_events opts s ++ attempt opts typed s o :: t)
    with ((passwd_events opts s ++ [attempt opts typed s o]) ++ t)
    by (now rewrite <- app_assoc).
  exact (in_turn_app _ _ _ _ _ (in_turn_attempt s o rest) H).
Qed.

Lemma login_loop_in_turn n : forall s t res s',
  Login.login_loop opts typed n s = (t, res, s') ->
  in_turn opts typed s t s'.
Proof.
  induction n as [|n IH]; intros s t res s' H.
  - cbn in H. injection H as <- _ <-. apply in_turn_refl.
  - rewrite login_loop_S in H. cbv zeta in H.
    destruct (Login.net s) as [|[r|e] rest] eqn:Hs.
    + injection H as <- _ <-.
      pose proof (in_turn_attempt s None (Login.net s)) as Ht.
      unfold with_net in Ht.
      replace (Login.mkMachine _ _ _)
        with (after_passwd opts typed s) in Ht; [exact Ht|].
      rewrite <- (after_passwd_net opts typed s).
      now destruct (after_passwd opts typed s).
    + injection H as <- _ <-. apply in_turn_attempt.
    + destruct (exn_eqb ConnectionError e).
      * destruct (Login.login_loop opts typed n _) as [[t0 res0] s0] eqn:E.
        injection H as <- _ <-. apply IH in E.
        apply (in_turn_attempt_then s _ rest).
        now repeat (apply in_turn_skip; [reflexivity|]).
      * injection H as <- _ <-. apply in_turn_attempt.
Qed.

Lemma _login_in_turn s t res s' :
  Login._login opts typed s = (t, res, s') -> in_turn opts typed s t s'.
Proof.
  rewrite _login_eq.
  destruct (Login.login_loop opts typed 5 s) as [[t0 res0] s0] eqn:E.
  intros H. injection H as <- _ <-.
  apply in_turn_skip; [reflexivity|].
  exact (login_loop_in_turn 5 _ _ _ _ E).
Qed.

Lemma loop_run_in_turn s t res s' :
  loop_run opts typed s t res s' -> in_turn opts typed s t s'.
Proof.
  induction 1 as
    [s Hs
    |s r rest t res s' Hs Hu Hq Hrun IH
    |s r rest e' Hs Hu Hq
    |s e rest Hs He
    |s o rest t1 s1 t res s' Hs Hp Hl Hrun IH
    |s o rest t1 s1 Hs Hp Hl
    |s o rest t1 e s1 Hs Hp Hl
    |s o rest t1 s1 Hs Hp Hl];
    try apply _login_in_turn in Hl;
    repeat (apply in_turn_skip; [reflexivity|]).
  - apply in_turn_refl.
  - exact IH.
  - apply in_turn_with_net.
  - apply in_turn_with_net.
  - exact (in_turn_app _ _ _ _ _ Hl IH).
  - apply (in_turn_app _ _ _ _ _ Hl).
    apply in_turn_skip; [reflexivity|apply in_turn_refl].
  - exact Hl.
  - exact Hl.
Qed.

Lemma _init_session_in_turn s t res s' :
  Login._init_session opts s = (t, res, s') -> in_turn opts typed s t s'.
Proof.
  rewrite _init_session_eq.
  destruct (Login.net s) as [|[r|e] rest];
    [|destruct (Z.eqb (status_code r) 200)
     |destruct (exn_eqb ConnectionError e)];
    intros H; injection H as <- _ <-;
    repeat (apply in_turn_skip; [reflexivity|]);
    first [apply in_turn_refl|apply in_turn_with_net].
Qed.

Lemma execute_run_in_turn s t res s' :
  execute_run opts typed s t res s' -> in_turn opts typed s t s'.
Proof.
  destruct 1 as
    [s t res s' H0 Hne
    |s t0 s0 t1 s1 H0 H1
    |s t0 s0 t1 e s1 H0 H1
    |s t0 s0 t1 s1 H0 H1
    |s t0 s0 t1 s1 t res s' H0 H1 Hrun];
    apply _init_session_in_turn in H0;
    try apply _login_in_turn in H1;
    try apply loop_run_in_turn in Hrun.
  - exact H0.
  - apply (in_turn_app _ _ _ _ _ H0), (in_turn_app _ _ _ _ _ H1).
    apply in_turn_skip; [reflexivity|apply in_turn_refl].
  - exact (in_turn_app _ _ _ _ _ H0 H1).
  - exact (in_turn_app _ _ _ _ _ H0 H1).
  - apply (in_turn_app _ _ _ _ _ H0), (in_turn_app _ _ _ _ _ H1).
    apply in_turn_skip; [reflexivity|exact Hrun].
Qed.

Lemma shutdown_in_turn s t res s' :
  Login.shutdown opts s = (t, res, s') -> in_turn opts typed s t s'.
Proof.
  rewrite shutdown_eq.
  destruct (Login.net s) as [|[r|e] rest];
    intros H; injection H as <- _ <-;
    repeat (apply in_turn_skip;
            [try destruct (Z.eqb (status_code r) 200); reflexivity|]);
    first [apply in_turn_refl|apply in_turn_with_net].
Qed.

End Passwords.

(** X6: the POSTs of a login process carry, in safe mode, the password
    typed at the first prompt, at the second prompt, and so on, one fresh
    entry for each POST; without safe mode every POST carries the password
    typed at the first prompt. *)
Theorem passwords_sent_in_turn opts typed script :
  posted_passwords (fst (Login.process opts typed script))
  = map (fun i => if truthy (Login.safe_mode opts) then typed i
                  else typed 0)
        (seq 0 (count is_post (fst (Login.process opts typed script)))).
Proof.
  destruct (process_cases opts typed script)
    as (t & res & s' & Hrun & Hcase).
  apply execute_run_in_turn in Hrun.
  assert (Hall : forall more s2,
            in_turn opts typed s' more s2 ->
            posted_passwords (t ++ more)
            = map (fun i => if truthy (Login.safe_mode opts) then typed i
                            else typed 0)
                  (seq 0 (count is_post (t ++ more)))).
  { intros more s2 Hmore.
    destruct (in_turn_app opts typed _ _ _ _ _ Hrun Hmore) as [P _].
    rewrite P. apply map_ext. intros i.
    unfold password_at, passwd_of. cbn.
    now destruct (truthy (Login.safe_mode opts)). }
  destruct Hcase as [[_ ->]|[_ (t2 & res2 & s2 & E2 & ->)]]; cbn [fst].
  - rewrite <- (app_nil_r t). apply (Hall [] s'), in_turn_refl.
  - apply (Hall _ s2). apply in_turn_skip; [reflexivity|].
    exact (shutdown_in_turn opts typed _ _ _ _ E2).
Qed.

(** ** X7: what ending in index.php means *)

Lemma length_append (a b : string) :
  String.length (a ++ b) = String.length a + String.length b.
Proof. induction a as [|c a IH]; cbn; [reflexivity|now rewrite IH]. Qed.

Lemma substring_all (s : string) : substring 0 (String.length s) s = s.
Proof. induction s as [|c s IH]; cbn; [reflexivity|now rewrite IH]. Qed.

Lemma substring_after (a b : string) :
  substring (String.length a) (String.length b) (a ++ b) = b.
Proof. induction a as [|c a IH]; cbn; [apply substring_all|exact IH]. Qed.

Lemma substring_cut (s : string) : forall k,
  k <= String.length s ->
  s = (substring 0 k s ++ substring k (String.length s - k) s)%string.
Proof.
  induction s as [|c s IH]; intros [|k] Hk; cbn in *; try lia.
  - reflexivity.
  - now rewrite substring_all.
  - f_equal. apply IH. lia.
Qed.

Lemma endswith_iff (s suffix : string) :
  endswith s suffix = true <-> exists p, s = (p ++ suffix)%string.
Proof.
  unfold endswith. split.
  - destruct (Nat.ltb_spec (String.length s) (String.length suffix))
      as [Hlt|Hge]; [discriminate|].
    intros H. apply String.eqb_eq in H.
    exists (substring 0 (String.length s - String.length suffix) s).
    pose proof (substring_cut s (String.length s - String.length suffix))
      as Hc.
    replace (String.length s - (String.length s - String.length suffix))
      with (String.length suffix) in Hc by lia.
    rewrite H in Hc. apply Hc. lia.
  - intros [p ->]. rewrite length_append.
    destruct (Nat.ltb_spec (String.length p + String.length suffix)
                           (String.length suffix)) as [Hlt|Hge]; [lia|].
    replace (String.length p + String.length suffix - String.length suffix)
      with (String.length p) by lia.
    rewrite substring_after. apply String.eqb_refl.
Qed.

(** X7: a keep-alive poll that gets a response returns False exactly when
    the final URL of the response is some string followed by index.php,
    whatever that string is. *)
Theorem keepalive_fails_on_suffix opts s r rest :
  Login.net s = Returns r :: rest ->
  (snd (run (Login._keepalive opts) s) = Ret false <->
   exists p, url r = (p ++ "index.php")%string).
Proof.
  intros Hs. unfold run. rewrite _keepalive_eq, Hs. cbn [snd].
  rewrite <- endswith_iff.
  destruct (endswith (url r) "index.php"); cbn; split; congruence.
Qed.

Lemma keepalive_fails_on_suffix_witness :
  snd (run (Login._keepalive sample_options)
           (Login.mkMachine None
              [Returns (mkResponse "https://zerberus.ba-horb.de/myindex.php"
                                   200 "")] 0))
  = Ret false.
Proof.
  apply (proj2 (keepalive_fails_on_suffix sample_options
                  (Login.mkMachine None
                     [Returns
                        (mkResponse "https://zerberus.ba-horb.de/myindex.php"
                                    200 "")] 0)
                  (mkResponse "https://zerberus.ba-horb.de/myindex.php" 200 "")
                  [] eq_refl)).
  exists "https://zerberus.ba-horb.de/my". reflexivity.
Defined.

(** * Further properties of the remote desktop action *)

(** ** The pieces of the search path *)

Lemma split_not_nil sep s : split sep s <> [].
Proof.
  destruct s as [|c s]; cbn; [discriminate|].
  destruct (Ascii.eqb c sep); [discriminate|].
  destruct (split sep s); discriminate.
Qed.

Lemma split_join sep s : join (String sep "") (split sep s) = s.
Proof.
  unfold join. induction s as [|c s IH]; [reflexivity|].
  cbn [split]. pose proof (split_not_nil sep s) as Hne.
  destruct (Ascii.eqb_spec c sep) as [->|Hc].
  - destruct (split sep s) as [|w ws]; [now elim Hne|].
    cbn [String.concat]. cbn. now rewrite <- IH.
  - destruct (split sep s) as [|w ws]; [now elim Hne|].
    rewrite <- IH. destruct ws; reflexivity.
Qed.

Lemma split_no_sep sep s :
  Forall (fun piece => has_char sep piece = false) (split sep s).
Proof.
  induction s as [|c s IH]; cbn [split]; [now repeat constructor|].
  destruct (Ascii.eqb c sep) eqn:Hc; [now constructor|].
  destruct (split sep s) as [|w ws]; [repeat constructor; cbn; now rewrite Hc|].
  inversion IH as [|w' ws' Hw Hws]; subst.
  constructor; [|assumption]. cbn. now rewrite Hc, Hw.
Qed.

(** X8: check_executable cuts PATH at every colon, loses nothing in doing
    so, and returns True exactly when one of the pieces, followed by a
    slash and the program name, exists; an empty PATH is one empty piece,
    so that only /progname is looked at. *)
Theorem check_executable_tries_every_piece h progname path_var :
  RemoteDesktop.environ_PATH h = Some path_var ->
  join ":" (split ":" path_var) = path_var /\
  Forall (fun piece => has_char ":" piece = false) (split ":" path_var) /\
  (RemoteDesktop.check_executable h progname = Ret true <->
   exists piece,
     In piece (split ":" path_var) /\
     RemoteDesktop.path_exists h (piece ++ "/" ++ progname)%string = true) /\
  (path_var = "" ->
   RemoteDesktop.check_executable h progname
   = Ret (RemoteDesktop.path_exists h ("/" ++ progname)%string)).
Proof.
  intros Hp. split; [apply split_join|]. split; [apply split_no_sep|].
  unfold RemoteDesktop.check_executable. rewrite Hp. split.
  - rewrite <- existsb_exists. split; [congruence|intros ->; reflexivity].
  - intros ->. cbn. now rewrite orb_false_r.
Qed.

Lemma check_executable_tries_every_piece_witness :
  RemoteDesktop.check_executable
    (RemoteDesktop.mkHost (Some "/usr/local/bin:/usr/bin")
       (fun f => String.eqb f "/usr/bin/rdesktop")
       (RemoteDesktop.Starts (RemoteDesktop.Exits 0)))
    "rdesktop"
  = Ret true.
Proof.
  apply (proj1 (proj2 (proj2 (check_executable_tries_every_piece
           (RemoteDesktop.mkHost (Some "/usr/local/bin:/usr/bin")
              (fun f => String.eqb f "/usr/bin/rdesktop")
              (RemoteDesktop.Starts (RemoteDesktop.Exits 0)))
           "rdesktop" "/usr/local/bin:/usr/bin" eq_refl)))).
  exists "/usr/bin". split; [right; left; reflexivity|reflexivity].
Defined.

(** ** X9: no PATH in the environment *)

(** X9: when PATH is not set, constructing the launcher raises KeyError:
    the process ends with it, nothing is logged and rdesktop is never
    started. *)
Theorem unset_path_raises_keyerror opts h :
  RemoteDesktop.environ_PATH h = None ->
  RemoteDesktop.process opts h = ([], Raise KeyError).
Proof.
  intros Hp.
  unfold RemoteDesktop.process, run, main.
  cbn [init execute shutdown RemoteDesktop.action].
  unfold bind at 1.
  unfold RemoteDesktop.init, RemoteDesktop.check_executable.
  now rewrite Hp.
Qed.

Lemma unset_path_raises_keyerror_witness :
  RemoteDesktop.process sample_desktop_options
    (RemoteDesktop.mkHost None (fun _ => true)
       (RemoteDesktop.Starts (RemoteDesktop.Exits 0)))
  = ([], Raise KeyError).
Proof.
  apply (unset_path_raises_keyerror sample_desktop_options
           (RemoteDesktop.mkHost None (fun _ => true)
              (RemoteDesktop.Starts (RemoteDesktop.Exits 0)))).
  reflexivity.
Defined.

(** ** X10: when the child is terminated *)

Lemma termserv_process_eq opts h path_var :
  RemoteDesktop.environ_PATH h = Some path_var ->
  RemoteDesktop.process opts h =
  let start :=
    (if existsb
          (fun path => RemoteDesktop.path_exists h (path ++ "/rdesktop")%string)
          (split ":" path_var)
     then [] else [install_note])
    ++ [ELog INFO "Connecting to the remote desktop" [];
        ELog DEBUG (join " " (RemoteDesktop.args opts)) [];
        EPopen (RemoteDesktop.args opts)] in
  match RemoteDesktop.popen h with
  | RemoteDesktop.Fails KeyboardInterrupt =>
      (start ++ [interrupt_note], Raise AttributeError)
  | RemoteDesktop.Fails e => (start, Raise e)
  | RemoteDesktop.Starts (RemoteDesktop.Exits _) =>
      (start ++ [EWait], Ret tt)
  | RemoteDesktop.Starts (RemoteDesktop.Interrupted true) =>
      (start ++ [EWait; interrupt_note; EPoll;
                 ELog INFO "Killing rdesktop process..." []; ETerminate],
       Ret tt)
  | RemoteDesktop.Starts (RemoteDesktop.Interrupted false) =>
      (start ++ [EWait; interrupt_note; EPoll], Ret tt)
  end.
Proof.
  intros Hp.
  unfold RemoteDesktop.process, run, main.
  cbn [init execute shutdown RemoteDesktop.action].
  unfold bind at 1.
  unfold RemoteDesktop.init, RemoteDesktop.check_executable.
  rewrite Hp.
  unfold try_except, RemoteDesktop.execute, bind, log,
    emit, ret, RemoteDesktop.Popen, RemoteDesktop.proc_wait,
    RemoteDesktop.shutdown, RemoteDesktop.proc_poll.
  destruct (existsb _ _);
    destruct (RemoteDesktop.popen h) as [[]|[code|[]]]; reflexivity.
Qed.

(** X10: with PATH set, the launcher sends the termination signal exactly
    when the wait for the child was interrupted and the child is still
    running at the poll; a child that exits by itself is neither polled
    nor terminated and the process returns normally. *)
Theorem child_terminated_iff_interrupted_alive opts h path_var :
  RemoteDesktop.environ_PATH h = Some path_var ->
  (In ETerminate (fst (RemoteDesktop.process opts h)) <->
   RemoteDesktop.popen h = RemoteDesktop.Starts (RemoteDesktop.Interrupted true))
  /\
  (forall code,
     RemoteDesktop.popen h = RemoteDesktop.Starts (RemoteDesktop.Exits code) ->
     snd (RemoteDesktop.process opts h) = Ret tt /\
     ~ In EPoll (fst (RemoteDesktop.process opts h)) /\
     ~ In ETerminate (fst (RemoteDesktop.process opts h))).
Proof.
  intros Hp. rewrite (termserv_process_eq opts h path_var Hp). cbv zeta.
  assert (Hstart : forall e,
    (e = EPoll \/ e = ETerminate) ->
    ~ In e ((if existsb
                  (fun path =>
                     RemoteDesktop.path_exists h (path ++ "/rdesktop")%string)
                  (split ":" path_var)
             then [] else [install_note])
            ++ [ELog INFO "Connecting to the remote desktop" [];
                ELog DEBUG (join " " (RemoteDesktop.args opts)) [];
                EPopen (RemoteDesktop.args opts)])).
  { intros e He Hin. apply in_app_or in Hin.
    destruct (existsb _ _); cbn in Hin; unfold install_note in Hin;
      destruct He; subst; intuition discriminate. }
  split.
  - destruct (RemoteDesktop.popen h) as [[]|[code|[]]]; cbn [fst];
      (split; [intros Hin|intros Heq; try discriminate Heq]);
      try reflexivity;
      try (apply in_app_or in Hin; destruct Hin as [Hin|Hin];
           [now apply Hstart in Hin; auto
           |cbn in Hin; unfold interrupt_note in Hin;
            intuition discriminate]);
      try (now apply Hstart in Hin; auto).
    apply in_or_app. right. cbn. auto 10.
  - intros code ->. cbn [fst snd]. split; [reflexivity|].
    split; intros Hin; apply in_app_or in Hin; destruct Hin as [Hin|Hin];
      try (now apply Hstart in Hin; auto);
      cbn in Hin; intuition discriminate.
Qed.

Lemma child_terminated_iff_interrupted_alive_witness :
  In ETerminate
    (fst (RemoteDesktop.process sample_desktop_options
            (RemoteDesktop.mkHost (Some "/usr/bin")
               (fun _ => true)
               (RemoteDesktop.Starts (RemoteDesktop.Interrupted true))))).
Proof.
  apply (proj2 (proj1 (child_terminated_iff_interrupted_alive
           sample_desktop_options
           (RemoteDesktop.mkHost (Some "/usr/bin")
              (fun _ => true)
              (RemoteDesktop.Starts (RemoteDesktop.Interrupted true)))
           "/usr/bin" eq_refl))).
  reflexivity.
Defined.

(** ** X11: an interrupt before the child exists *)

(** X11: when the operator interrupts while Popen is still starting the
    child, self.proc has not been assigned: main logs the interrupt and
    calls shutdown, which raises AttributeError instead of polling. *)
Theorem interrupt_before_spawn_raises opts h path_var :
  RemoteDesktop.environ_PATH h = Some path_var ->
  RemoteDesktop.popen h = RemoteDesktop.Fails KeyboardInterrupt ->
  snd (RemoteDesktop.process opts h) = Raise AttributeError /\
  last (fst (RemoteDesktop.process opts h)) EWait = interrupt_note /\
  ~ In EPoll (fst (RemoteDesktop.process opts h)).
Proof.
  intros Hp Hk. rewrite (termserv_process_eq opts h path_var Hp), Hk.
  cbv zeta. cbn [fst snd]. split; [reflexivity|]. split.
  - rewrite last_last. reflexivity.
  - intros Hin. apply in_app_or in Hin. destruct Hin as [Hin|Hin].
    + apply in_app_or in Hin.
      destruct (existsb _ _); cbn in Hin; unfold install_note in Hin;
        intuition discriminate.
    + cbn in Hin. unfold interrupt_note in Hin. intuition discriminate.
Qed.

Lemma interrupt_before_spawn_raises_witness :
  snd (RemoteDesktop.process sample_desktop_options
         (RemoteDesktop.mkHost (Some "/usr/bin") (fun _ => true)
            (RemoteDesktop.Fails KeyboardInterrupt)))
  = Raise AttributeError.
Proof.
  apply (interrupt_before_spawn_raises sample_desktop_options
           (RemoteDesktop.mkHost (Some "/usr/bin") (fun _ => true)
              (RemoteDesktop.Fails KeyboardInterrupt))
           "/usr/bin" eq_refl eq_refl).
Defined.

(** * The verbosity of the log *)

(** X12: the threshold that main gives the root logger never rises with
    the count of -v: it is WARNING up to a count of 1, INFO at 2, DEBUG at
    3 and 1 from 4 on.  From a count of 2, the default, every line that is
    not a debug line passes; debug lines pass exactly from a count of 3. *)
Theorem verbosity_lowers_the_threshold :
  (forall v v', (v <= v')%Z -> (root_level v' <= root_level v)%Z) /\
  (forall v,
     root_level v
     = if (v <=? 1)%Z then level_no WARNING
       else if (v =? 2)%Z then level_no INFO
       else if (v =? 3)%Z then level_no DEBUG
       else 1%Z) /\
  (forall v l,
     (2 <= v)%Z -> l <> DEBUG -> (root_level v <= level_no l)%Z) /\
  (forall v, (root_level v <= level_no DEBUG)%Z <-> (3 <= v)%Z).
Proof.
  assert (Hval : forall v,
     root_level v
     = if (v <=? 1)%Z then level_no WARNING
       else if (v =? 2)%Z then level_no INFO
       else if (v =? 3)%Z then level_no DEBUG
       else 1%Z).
  { intros v. unfold root_level. cbv zeta.
    destruct (Z.leb_spec 1 v), (Z.leb_spec 2 v), (Z.leb_spec 3 v),
      (Z.leb_spec 4 v), (Z.leb_spec v 1), (Z.eqb_spec v 2),
      (Z.eqb_spec v 3); try lia; reflexivity. }
  split; [|split; [exact Hval|split]].
  - intros v v' Hv. rewrite !Hval.
    destruct (Z.leb_spec v 1), (Z.eqb_spec v 2), (Z.eqb_spec v 3),
      (Z.leb_spec v' 1), (Z.eqb_spec v' 2), (Z.eqb_spec v' 3);
      cbn; lia.
  - intros v l Hv Hl. rewrite Hval.
    destruct (Z.leb_spec v 1), (Z.eqb_spec v 2), (Z.eqb_spec v 3);
      destruct l; cbn; try lia; now elim Hl.
  - intros v. rewrite Hval.
    destruct (Z.leb_spec v 1), (Z.eqb_spec v 2), (Z.eqb_spec v 3);
      cbn; lia.
Qed.

Lemma verbosity_lowers_the_threshold_witness :
  (root_level 3 <= root_level 2)%Z /\
  (root_level 2 <= level_no INFO)%Z.
Proof.
  destruct verbosity_lowers_the_threshold as (Hmono & _ & Hshown & _).
  split.
  - apply (Hmono 2 3)%Z. lia.
  - apply (Hshown 2 INFO)%Z; [lia|discriminate].
Defined.

(** * The URLs of the portal *)

Lemma substring_skip (a b : string) k m :
  substring (String.length a + k) m (a ++ b) = substring k m b.
Proof. induction a as [|c a IH]; cbn; [reflexivity|exact IH]. Qed.

(** Only the end of a string matters to [endswith]. *)
Lemma endswith_append (a b suffix : string) :
  String.length suffix <= String.length b ->
  endswith (a ++ b) suffix = endswith b suffix.
Proof.
  intros Hlen. unfold endswith. rewrite length_append.
  destruct (Nat.ltb_spec (String.length a + String.length b)
                         (String.length suffix)); [lia|].
  destruct (Nat.ltb_spec (String.length b) (String.length suffix)); [lia|].
  replace (String.length a + String.length b - String.length suffix)
    with (String.length a + (String.length b - String.length suffix)) by lia.
  now rewrite substring_skip.
Qed.

(** X13: whatever the server name, the URL built for a target determines
    the target, and the test for index.php at its end looks at the target
    alone: the landing page URL passes it, the URLs of the login, the
    keep-alive and the logout do not.  So a poll answered at the keep-alive
    URL itself always finds the session alive, and one answered at the
    landing page URL never does. *)
Theorem build_url_ends_with_its_target opts :
  (forall a b, Login._build_url opts a = Login._build_url opts b <-> a = b) /\
  (forall target,
     9 <= String.length target ->
     endswith (Login._build_url opts target) "index.php"
     = endswith target "index.php") /\
  endswith (Login._build_url opts "index.php") "index.php" = true /\
  endswith (Login._build_url opts "online.php") "index.php" = false /\
  endswith (Login._build_url opts "login-exec.php") "index.php" = false /\
  endswith (Login._build_url opts "logout.php") "index.php" = false /\
  (forall s rest body status,
     Login.net s
     = Returns (mkResponse (Login._build_url opts "online.php") status body)
       :: rest ->
     snd (run (Login._keepalive opts) s) = Ret true).
Proof.
  assert (Hend : forall target,
     9 <= String.length target ->
     endswith (Login._build_url opts target) "index.php"
     = endswith target "index.php").
  { intros target Hlen. unfold Login._build_url.
    rewrite !endswith_append; [reflexivity|exact Hlen|cbn; lia|].
    rewrite !length_append. cbn. lia. }
  split; [|split; [exact Hend|]].
  - intros a b. split; [apply build_url_inj|now intros ->].
  - repeat split; try (rewrite Hend; [reflexivity|cbn; lia]).
    intros s rest body status Hs. unfold run.
    rewrite _keepalive_eq, Hs. cbn [snd url].
    rewrite Hend; [reflexivity|cbn; lia].
Qed.

Lemma build_url_ends_with_its_target_witness :
  endswith (Login._build_url sample_options "login-exec.php") "index.php"
  = endswith "login-exec.php" "index.php" /\
  snd (run (Login._keepalive sample_options)
           (Login.mkMachine None [Returns online] 0)) = Ret true.
Proof.
  destruct (build_url_ends_with_its_target sample_options)
    as (_ & Hend & _ & _ & _ & _ & Hpoll).
  split.
  - apply (Hend "login-exec.php"). cbn. lia.
  - apply (Hpoll (Login.mkMachine None [Returns online] 0) [] "" 200%Z).
    reflexivity.
Defined.
